(** * pusher-ws-go: the websocket client (client.go)

    A shallow embedding of [Client] and its methods, and the properties of
    the connection state machine, the activity-timer reset slot, the event
    router, the channel registry and the close notification fan-out.

    One goroutine is followed at a time.  A method is a function from the
    state of the world to an outcome: it returns, it panics, or it blocks
    on a channel operation or on the transport.  The mutexes of [Client] are
    not modelled: along one goroutine every acquisition succeeds. *)

From Stdlib Require Import ZArith String List Bool Lia.
From stdpp Require Import base gmap strings list pretty.

Open Scope string_scope.
Open Scope list_scope.

(** ** Constants of client.go *)

(** The double quote character, for the two literal payloads. *)
Definition dquote : string :=
  String (Ascii.Ascii false true false false false true false false) EmptyString.

Definition quoted (s : string) : string := dquote +:+ s +:+ dquote.

Definition pusherPing : string := "pusher:ping".
Definition pusherPong : string := "pusher:pong".
Definition pusherError : string := "pusher:error".
Definition pusherSubscribe : string := "pusher:subscribe".
Definition pusherUnsubscribe : string := "pusher:unsubscribe".
Definition pusherConnEstablished : string := "pusher:connection_established".
Definition pusherSubSucceeded : string := "pusher:subscription_succeeded".
Definition pusherInternalSubSucceeded : string :=
  "pusher_internal:subscription_succeeded".
Definition pusherInternalMemberAdded : string := "pusher_internal:member_added".
Definition pusherInternalMemberRemoved : string :=
  "pusher_internal:member_removed".

(** [{"event":"pusher:ping","data":"{}"}] and its pong twin. *)
Definition pingPayload : string :=
  Eval cbv in
    "{" +:+ quoted "event" +:+ ":" +:+ quoted pusherPing +:+ ","
        +:+ quoted "data" +:+ ":" +:+ quoted "{}" +:+ "}".
Definition pongPayload : string :=
  Eval cbv in
    "{" +:+ quoted "event" +:+ ":" +:+ quoted pusherPong +:+ ","
        +:+ quoted "data" +:+ ":" +:+ quoted "{}" +:+ "}".

Definition localOrigin : string := "http://localhost/".
Definition secureScheme : string := "wss".
Definition securePort : Z := 443.
Definition insecureScheme : string := "ws".
Definition insecurePort : Z := 80.
Definition defaultHost : string := "ws.pusherapp.com".
Definition protocolVersion : string := "7".

(** ** Durations

    [time.Duration] is an [int64] count of nanoseconds; arithmetic on it
    wraps around. *)

Definition wrap64 (z : Z) : Z := ((z + 2 ^ 63) mod 2 ^ 64 - 2 ^ 63)%Z.

Definition Duration := Z.
Definition Second : Duration := 1000000000%Z.
Definition pongTimeout : Duration := wrap64 (30 * Second).

(** [time.Duration(n) * time.Second] *)
Definition seconds (n : Z) : Duration := wrap64 (n * Second).

(** ** Errors

    An [error] is either a plain one, with its message, or one made by
    [fmt.Errorf] with the verb [%w], which keeps the error it wraps. *)

Inductive error : Type :=
| NewError (msg : string)
| WrapError (msg : string) (cause : error).

Fixpoint Error (e : error) : string :=
  match e with
  | NewError msg => msg
  | WrapError msg cause => msg +:+ Error cause
  end.

(** [errors.Unwrap] *)
Definition Unwrap (e : error) : option error :=
  match e with
  | NewError _ => None
  | WrapError _ cause => Some cause
  end.

(** ** Events and frames *)

(** [json.RawMessage] is a byte slice. *)
Definition RawMessage := list Byte.byte.

(** The envelope, with the three fields client.go reads and writes. *)
Record Event : Type := mkEvent {
  ev_Event : string;
  ev_Data : RawMessage;
  ev_Channel : string
}.

(** What is written to the websocket: a text message
    ([websocket.Message.Send]) or an envelope ([websocket.JSON.Send]). *)
Inductive Frame : Type :=
| TextFrame (payload : string)
| JSONFrame (e : Event).

Record connectionData : Type := mkConnectionData {
  cd_SocketID : string;
  cd_ActivityTimeout : Z
}.

(** ** Go channels

    A channel has a capacity, a buffer, and a queue of goroutines parked in
    a receive.  [ch_taken] lists the values handed directly to parked
    receivers, oldest first.  A value sent on the channel ends in [ch_taken]
    or at the back of [ch_buf]. *)

Record gochan (A : Type) : Type := mkChan {
  ch_cap : nat;
  ch_buf : list A;
  ch_recvq : nat;
  ch_taken : list A;
  ch_closed : bool
}.
Arguments mkChan {A}.
Arguments ch_cap {A}.
Arguments ch_buf {A}.
Arguments ch_recvq {A}.
Arguments ch_taken {A}.
Arguments ch_closed {A}.

(** [make(chan A, n)] *)
Definition make_chan {A : Type} (n : nat) : gochan A := mkChan n [] 0 [] false.

Inductive send_result (A : Type) : Type :=
| SendOk (c : gochan A)
| SendNotReady
| SendPanic.
Arguments SendOk {A}.
Arguments SendNotReady {A}.
Arguments SendPanic {A}.

(** One attempt to send, as the runtime does it: a closed channel panics, a
    parked receiver takes the value, a buffer with room stores it, and
    otherwise the send cannot proceed. *)
Definition chansend {A : Type} (c : gochan A) (v : A) : send_result A :=
  if ch_closed c then SendPanic
  else match ch_recvq c with
       | S n => SendOk (mkChan (ch_cap c) (ch_buf c) n (ch_taken c ++ [v]) false)
       | O =>
           if Nat.ltb (List.length (ch_buf c)) (ch_cap c)
           then SendOk (mkChan (ch_cap c) (ch_buf c ++ [v]) 0 (ch_taken c) false)
           else SendNotReady
       end.

(** ** The transport

    A connection is scripted: [conn_in] is what the successive calls of
    [websocket.JSON.Receive] return, [conn_out] the frames written so far,
    oldest first. *)

Record Conn : Type := mkConn {
  conn_in : list (error + Event);
  conn_out : list Frame;
  conn_closed : bool
}.

Definition errClosedConn : error := NewError "use of closed network connection".

(** ** Timers *)

Record Timer : Type := mkTimer {
  tm_d : Duration;     (* the duration of the last NewTimer or Reset *)
  tm_armed : bool;     (* running: it has neither fired nor been stopped *)
  tm_C : bool          (* a tick waits in the channel C *)
}.

Definition NewTimer (d : Duration) : Timer := mkTimer d true false.

(** [t.Stop()]: the new timer and whether the call stopped it. *)
Definition timer_Stop (t : Timer) : Timer * bool :=
  (mkTimer (tm_d t) false (tm_C t), tm_armed t).

(** [t.Reset(d)] *)
Definition timer_Reset (d : Duration) (t : Timer) : Timer :=
  mkTimer d true (tm_C t).

(** The runtime fires a running timer: a tick is put in [C]. *)
Definition timer_fire (t : Timer) : Timer :=
  if tm_armed t then mkTimer (tm_d t) false true else t.

(** ** Channel entries

    client.go builds a [channel] with its name, an empty table of bindings
    and the client, and wraps it by the prefix of the name: the pointer
    itself, a [privateChannel] around it, or what [newPresenceChannel]
    returns.  An entry is kept here as one object with the variant as a
    tag.  References are locations in a heap. *)

Abbreviation loc := nat.

Inductive variant : Type := Public | Private | Presence.

#[global] Instance variant_eq_dec : EqDecision variant.
Proof. solve_decision. Defined.

(** Modelled from the spec: the subscription state of an entry, a field of
    [channel] declared in channel.go ("States per Channel Entry:
    unsubscribed, subscribing, subscribed"). *)
Inductive subscriptionState : Type := unsubscribed | subscribing | subscribed.

#[global] Instance subscriptionState_eq_dec : EqDecision subscriptionState.
Proof. solve_decision. Defined.

(** [name] and [boundEvents] are the fields client.go fills in.
    Modelled from the spec: the two other fields of an entry, declared in
    channel.go ("subscriptionState", and "for the presence variant only, a
    members mapping from member identifier to member metadata"). *)
Record channel : Type := mkChannel {
  chn_variant : variant;
  chn_name : string;
  chn_boundEvents : gmap string (gset loc);
  chn_state : subscriptionState;
  chn_members : gmap string RawMessage
}.

(** A goroutine started by a [go] statement. *)
Inductive goroutine : Type :=
| GoHeartbeat
| GoListen
| GoDeliver (boundChan : loc) (event : Event)        (* boundChan <- event *)
| GoDeliverData (boundChan : loc) (data : RawMessage). (* by an entry *)

(** ** The client *)

Record Client : Type := mkClient {
  Cluster : string;
  Insecure : bool;
  AuthURL : string;
  AuthParams : list (string * list string);
  AuthHeaders : list (string * list string);
  Errors : option loc;                      (* nil is None *)
  closes : list (option loc);        (* channels, some perhaps nil *)
  disconnectErr : option error;
  socketID : string;
  ActivityTimeout : Duration;
  _activityTimeout : Duration;
  ws : option Conn;                         (* nil is None *)
  connected : bool;
  activityTimer : option Timer;
  activityTimerReset : option (gochan unit);
  boundEvents : option (gmap string (gset loc));      (* a nil map is None *)
  subscribedChannels : option (gmap string loc);
  overrideHost : string;
  overridePort : Z
}.

(** The zero value of [Client] with the exported fields as the caller set
    them: what [&pusher.Client{...}] gives. *)
Definition newClient (cluster : string) (insecure : bool) (authURL : string)
    (errs : option loc) (activityTimeout : Duration) : Client :=
  mkClient cluster insecure authURL [] [] errs [] None "" activityTimeout 0%Z
           None false None None None None "" 0%Z.

Definition set_closes (v : list (option loc)) (c : Client) : Client :=
  mkClient (Cluster c) (Insecure c) (AuthURL c) (AuthParams c) (AuthHeaders c)
    (Errors c) v (disconnectErr c) (socketID c) (ActivityTimeout c)
    (_activityTimeout c) (ws c) (connected c) (activityTimer c)
    (activityTimerReset c) (boundEvents c) (subscribedChannels c)
    (overrideHost c) (overridePort c).

Definition set_disconnectErr (v : option error) (c : Client) : Client :=
  mkClient (Cluster c) (Insecure c) (AuthURL c) (AuthParams c) (AuthHeaders c)
    (Errors c) (closes c) v (socketID c) (ActivityTimeout c)
    (_activityTimeout c) (ws c) (connected c) (activityTimer c)
    (activityTimerReset c) (boundEvents c) (subscribedChannels c)
    (overrideHost c) (overridePort c).

Definition set_ws (v : option Conn) (c : Client) : Client :=
  mkClient (Cluster c) (Insecure c) (AuthURL c) (AuthParams c) (AuthHeaders c)
    (Errors c) (closes c) (disconnectErr c) (socketID c) (ActivityTimeout c)
    (_activityTimeout c) v (connected c) (activityTimer c)
    (activityTimerReset c) (boundEvents c) (subscribedChannels c)
    (overrideHost c) (overridePort c).

Definition set_connected (v : bool) (c : Client) : Client :=
  mkClient (Cluster c) (Insecure c) (AuthURL c) (AuthParams c) (AuthHeaders c)
    (Errors c) (closes c) (disconnectErr c) (socketID c) (ActivityTimeout c)
    (_activityTimeout c) (ws c) v (activityTimer c)
    (activityTimerReset c) (boundEvents c) (subscribedChannels c)
    (overrideHost c) (overridePort c).

Definition set_activityTimer (v : option Timer) (c : Client) : Client :=
  mkClient (Cluster c) (Insecure c) (AuthURL c) (AuthParams c) (AuthHeaders c)
    (Errors c) (closes c) (disconnectErr c) (socketID c) (ActivityTimeout c)
    (_activityTimeout c) (ws c) (connected c) v
    (activityTimerReset c) (boundEvents c) (subscribedChannels c)
    (overrideHost c) (overridePort c).

Definition set_activityTimerReset (v : option (gochan unit)) (c : Client) : Client :=
  mkClient (Cluster c) (Insecure c) (AuthURL c) (AuthParams c) (AuthHeaders c)
    (Errors c) (closes c) (disconnectErr c) (socketID c) (ActivityTimeout c)
    (_activityTimeout c) (ws c) (connected c) (activityTimer c)
    v (boundEvents c) (subscribedChannels c)
    (overrideHost c) (overridePort c).

Definition set_boundEvents (v : option (gmap string (gset loc))) (c : Client) : Client :=
  mkClient (Cluster c) (Insecure c) (AuthURL c) (AuthParams c) (AuthHeaders c)
    (Errors c) (closes c) (disconnectErr c) (socketID c) (ActivityTimeout c)
    (_activityTimeout c) (ws c) (connected c) (activityTimer c)
    (activityTimerReset c) v (subscribedChannels c)
    (overrideHost c) (overridePort c).

Definition set_subscribedChannels (v : option (gmap string loc)) (c : Client) : Client :=
  mkClient (Cluster c) (Insecure c) (AuthURL c) (AuthParams c) (AuthHeaders c)
    (Errors c) (closes c) (disconnectErr c) (socketID c) (ActivityTimeout c)
    (_activityTimeout c) (ws c) (connected c) (activityTimer c)
    (activityTimerReset c) (boundEvents c) v
    (overrideHost c) (overridePort c).

(** The assignments of a successful handshake, in the order of the source. *)
Definition set_session (sid : string) (d : Duration) (c : Client) : Client :=
  mkClient (Cluster c) (Insecure c) (AuthURL c) (AuthParams c) (AuthHeaders c)
    (Errors c) (closes c) None sid (ActivityTimeout c)
    d (ws c) true (Some (NewTimer d))
    (Some (make_chan 1)) (Some ∅) (Some ∅)
    (overrideHost c) (overridePort c).

(** ** The world: the client and the objects it points to *)

Record World : Type := mkWorld {
  client : Client;
  errchans : gmap loc (gochan (option error));   (* the chan error values *)
  evchans : gset loc;                   (* the channels made by Bind *)
  entries : gmap loc channel;           (* the entries made by Subscribe *)
  goroutines : list goroutine           (* started so far, oldest first *)
}.

Definition upd_client (f : Client -> Client) (w : World) : World :=
  mkWorld (f (client w)) (errchans w) (evchans w) (entries w) (goroutines w).
Definition set_errchans (v : gmap loc (gochan (option error))) (w : World) : World :=
  mkWorld (client w) v (evchans w) (entries w) (goroutines w).
Definition set_evchans (v : gset loc) (w : World) : World :=
  mkWorld (client w) (errchans w) v (entries w) (goroutines w).
Definition set_entries (v : gmap loc channel) (w : World) : World :=
  mkWorld (client w) (errchans w) (evchans w) v (goroutines w).
Definition add_goroutines (gs : list goroutine) (w : World) : World :=
  mkWorld (client w) (errchans w) (evchans w) (entries w) (goroutines w ++ gs).

(** ** Outcomes and the monad of methods *)

Inductive outcome (A : Type) : Type :=
| Ret (a : A) (w : World)
| Panics (msg : string) (w : World)
| Blocks (w : World).
Arguments Ret {A}.
Arguments Panics {A}.
Arguments Blocks {A}.

Definition M (A : Type) : Type := World -> outcome A.

#[global] Instance M_ret : MRet M := fun A a w => Ret a w.
#[global] Instance M_bind : MBind M := fun A B k m w =>
  match m w with
  | Ret a w' => k a w'
  | Panics msg w' => Panics msg w'
  | Blocks w' => Blocks w'
  end.

Definition getClient : M Client := fun w => Ret (client w) w.
Definition modify (f : World -> World) : M unit := fun w => Ret tt (f w).
Definition modifyClient (f : Client -> Client) : M unit := modify (upd_client f).
Definition panic {A : Type} (msg : string) : M A := fun w => Panics msg w.
Definition block {A : Type} : M A := fun w => Blocks w.
Definition go (g : goroutine) : M unit := modify (add_goroutines [g]).

Definition nilDeref : string :=
  "invalid memory address or nil pointer dereference".

(** The world an outcome stops in. *)
Definition final {A : Type} (o : outcome A) : World :=
  match o with Ret _ w | Panics _ w | Blocks w => w end.

(** ** What client.go calls and does not define *)

(** A value handed to [json.Marshal]. *)
Inductive GoValue : Type :=
| VString (s : string)
| VStringMap (kv : list (string * string))    (* map[string]string *)
| VOpaque (id : nat).                         (* any other value *)

(** Modelled from the spec: the options of a subscription, declared in
    channel.go ("any caller-supplied channel data for presence channels"). *)
Inductive SubscribeOption : Type :=
| WithChannelData (data : string).

Record Env : Type := mkEnv {
  (* golang.org/x/net/websocket: the error, or what the server will send *)
  websocket_Dial : string -> string -> string -> error + list (error + Event);
  (* encoding/json, at the three types client.go uses it *)
  json_Unmarshal_string : list Byte.byte -> error + string;
  json_Unmarshal_connectionData : list Byte.byte -> error + connectionData;
  json_Marshal : GoValue -> error + RawMessage;
  (* event.go *)
  extractEventError : Event -> error;
  (* channel.go: the dispatch of an entry, on the entry itself, with the
     deliveries it starts *)
  handleEvent : channel -> string -> RawMessage -> channel * list goroutine;
  (* the HTTP call that signs a private or presence subscription: from the
     client, the channel name, the socket id and the channel data to the
     signature and the channel data to send *)
  authorize : Client -> string -> string -> option string ->
              error + (string * option string)
}.

Section ClientMethods.

Context (env : Env).

(** *** The websocket connection of the client *)

Definition ws_Receive : M (error + Event) := fun w =>
  match ws (client w) with
  | None => Panics nilDeref w
  | Some conn =>
      if conn_closed conn then Ret (inl errClosedConn) w
      else match conn_in conn with
           | [] => Blocks w
           | r :: rest =>
               Ret r (upd_client (set_ws (Some (mkConn rest (conn_out conn) false))) w)
           end
  end.

Definition ws_Send (f : Frame) : M (option error) := fun w =>
  match ws (client w) with
  | None => Panics nilDeref w
  | Some conn =>
      if conn_closed conn then Ret (Some errClosedConn) w
      else Ret None
             (upd_client (set_ws (Some (mkConn (conn_in conn) (conn_out conn ++ [f]) false))) w)
  end.

Definition ws_Close : M (option error) := fun w =>
  match ws (client w) with
  | None => Panics nilDeref w
  | Some conn =>
      if conn_closed conn then Ret (Some errClosedConn) w
      else Ret None
             (upd_client (set_ws (Some (mkConn (conn_in conn) (conn_out conn) true))) w)
  end.

(** The deadline only bounds the time a read may take. *)
Definition ws_SetReadDeadline (t : Duration) : M unit := fun w =>
  match ws (client w) with
  | None => Panics nilDeref w
  | Some _ => Ret tt w
  end.

(** *** Error channels

    A reference to a channel is a location of [errchans] or nil; a
    location outside the heap behaves as nil. *)

Definition deref (r : option loc) (w : World) : option (gochan (option error)) :=
  l ← r; errchans w !! l.

Definition store (r : option loc) (ch : gochan (option error)) (w : World) : World :=
  match r with
  | Some l => set_errchans (<[l := ch]> (errchans w)) w
  | None => w
  end.

(** [ch <- v] *)
Definition chan_send (r : option loc) (v : option error) : M unit := fun w =>
  match deref r w with
  | None => Blocks w
  | Some ch =>
      match chansend ch v with
      | SendOk ch' => Ret tt (store r ch' w)
      | SendNotReady => Blocks w
      | SendPanic => Panics "send on closed channel" w
      end
  end.

(** [close(ch)] *)
Definition chan_close (r : option loc) : M unit := fun w =>
  match deref r w with
  | None => Panics "close of nil channel" w
  | Some ch =>
      if ch_closed ch then Panics "close of closed channel" w
      else Ret tt (store r (mkChan (ch_cap ch) (ch_buf ch) 0 (ch_taken ch) true) w)
  end.

(** *** client.go *)

Definition UnmarshalDataString {T : Type} (unmarshal : list Byte.byte -> error + T)
    (data : RawMessage) : error + T :=
  match json_Unmarshal_string env data with
  | inl err => inl err
  | inr dataStr => unmarshal (list_byte_of_string dataStr)
  end.

Definition generateConnURL (c : Client) (appKey : string) : string :=
  let '(scheme, port) :=
    if Insecure c then (insecureScheme, insecurePort)
    else (secureScheme, securePort) in
  let port := if (overridePort c =? 0)%Z then port else overridePort c in
  let host :=
    if String.eqb (Cluster c) "" then defaultHost
    else "ws-" +:+ Cluster c +:+ ".pusher.com" in
  let host := if String.eqb (overrideHost c) "" then host else overrideHost c in
  scheme +:+ "://" +:+ host +:+ ":" +:+ pretty port +:+ "/app/" +:+ appKey
         +:+ "?protocol=" +:+ protocolVersion.

Definition NotifyClose (ch : option loc) : M (option loc) :=
  _ ← modifyClient (fun c => set_closes (closes c ++ [ch]) c);
  mret ch.

Definition Connect (appKey : string) : M (option error) :=
  c ← getClient;
  match websocket_Dial env (generateConnURL c appKey) "" localOrigin with
  | inl err =>
      _ ← modifyClient (set_ws None);
      mret (Some err)
  | inr script =>
      _ ← modifyClient (set_ws (Some (mkConn script [] false)));
      r ← ws_Receive;
      match r with
      | inl err => mret (Some err)
      | inr event =>
          if String.eqb (ev_Event event) pusherError then
            mret (Some (extractEventError env event))
          else if String.eqb (ev_Event event) pusherConnEstablished then
            match UnmarshalDataString (json_Unmarshal_connectionData env)
                                      (ev_Data event) with
            | inl err => mret (Some err)
            | inr connData =>
                _ ← modifyClient (fun c =>
                      set_session (cd_SocketID connData)
                        (if (ActivityTimeout c >? 0)%Z then ActivityTimeout c
                         else seconds (cd_ActivityTimeout connData)) c);
                _ ← go GoHeartbeat;
                _ ← go GoListen;
                mret None
            end
          else
            mret (Some (NewError ("Got unknown event type from Pusher: "
                                  +:+ ev_Event event)))
      end
  end.

Definition isConnected : M bool :=
  c ← getClient; mret (connected c).

(** The select has a default case: a send that cannot proceed is given up. *)
Definition resetActivityTimer : M unit := fun w =>
  match activityTimerReset (client w) with
  | None => Ret tt w
  | Some ch =>
      match chansend ch tt with
      | SendOk ch' => Ret tt (upd_client (set_activityTimerReset (Some ch')) w)
      | SendNotReady => Ret tt w
      | SendPanic => Panics "send on closed channel" w
      end
  end.

(** What one turn of the loop of [heartbeat] did. *)
Inductive heartbeatStep : Type := HbExit | HbRestart | HbPing.

(** A receive from the reset channel is ready when a request is buffered. *)
Definition reset_pending (c : Client) : bool :=
  match activityTimerReset c with
  | Some ch => negb (Nat.eqb (List.length (ch_buf ch)) 0) || ch_closed ch
  | None => false
  end.

(** One turn of the loop of [heartbeat].  When both cases of the select are
    ready the runtime picks one: [pickTimer] is its choice. *)
Definition heartbeat_turn (pickTimer : bool) : M heartbeatStep :=
  b ← isConnected;
  if negb b then mret HbExit else
  c ← getClient;
  match activityTimer c with
  | None => panic nilDeref
  | Some t =>
      let onReset : M heartbeatStep :=
        _ ← modifyClient (fun c =>
              set_activityTimerReset
                (option_map (fun ch => mkChan (ch_cap ch) (tl (ch_buf ch))
                                         (ch_recvq ch) (ch_taken ch) (ch_closed ch))
                            (activityTimerReset c)) c);
        let '(t1, stopped) := timer_Stop t in
        let t2 := if stopped then t1 else mkTimer (tm_d t1) (tm_armed t1) false in
        _ ← modifyClient (set_activityTimer
                            (Some (timer_Reset (_activityTimeout c) t2)));
        mret HbRestart in
      let onTimer : M heartbeatStep :=
        _ ← modifyClient (set_activityTimer
                            (Some (mkTimer (tm_d t) (tm_armed t) false)));
        _ ← ws_Send (TextFrame pingPayload);
        mret HbPing in
      match reset_pending c, tm_C t with
      | true, true => if pickTimer then onTimer else onReset
      | true, false => onReset
      | false, true => onTimer
      | false, false => block
      end
  end.

(** [heartbeat], with the choices of the runtime for its turns: [Some tt]
    when the loop ended. *)
Fixpoint heartbeat (picks : list bool) : M (option unit) :=
  match picks with
  | [] => mret None
  | pick :: rest =>
      s ← heartbeat_turn pick;
      match s with
      | HbExit => mret (Some tt)
      | _ => heartbeat rest
      end
  end.

Definition sendError (err : error) : M unit := fun w =>
  match deref (Errors (client w)) w with
  | None => Ret tt w
  | Some ch =>
      match chansend ch (Some err) with
      | SendOk ch' => Ret tt (store (Errors (client w)) ch' w)
      | SendNotReady => Ret tt w
      | SendPanic => Panics "send on closed channel" w
      end
  end.

(** The loop of [Disconnect] over [c.closes]. *)
Fixpoint broadcast (chs : list (option loc)) : M unit :=
  match chs with
  | [] => mret tt
  | ch :: rest =>
      c ← getClient;
      _ ← match disconnectErr c with
          | Some e =>
              chan_send ch (Some (WrapError "pusher connection closed with error: " e))
          | None => chan_send ch None
          end;
      _ ← chan_close ch;
      broadcast rest
  end.

Definition Disconnect : M (option error) :=
  _ ← modifyClient (set_connected false);
  c ← getClient;
  _ ← broadcast (closes c);
  _ ← modifyClient (set_closes []);
  c ← getClient;
  match ws c with
  | Some _ => ws_Close
  | None => mret None
  end.

Definition SendEvent (event : string) (data : GoValue) (channelName : string)
    : M (option error) :=
  match json_Marshal env data with
  | inl err => mret (Some err)
  | inr dataJSON =>
      _ ← resetActivityTimer;
      ws_Send (JSONFrame (mkEvent event dataJSON channelName))
  end.

Definition Bind (event : string) : M loc := fun w =>
  let boundChan := fresh (evchans w) in
  let w := set_evchans ({[boundChan]} ∪ evchans w) w in
  match boundEvents (client w) with
  | None => Panics "assignment to entry in nil map" w
  | Some m =>
      Ret boundChan
        (upd_client (set_boundEvents
           (Some (<[event := {[boundChan]} ∪ default ∅ (m !! event)]> m))) w)
  end.

Definition Unbind (event : string) (chans : list loc) : M unit :=
  modifyClient (fun c =>
    match chans with
    | [] => set_boundEvents (delete event <$> boundEvents c) c
    | _ => set_boundEvents
             (alter (fun s => s ∖ list_to_set chans) event <$> boundEvents c) c
    end).

(** *** The methods of an entry (channel.go) *)

Definition subscribePayload (name : string) (auth channelData : option string)
    : GoValue :=
  VStringMap (("channel", name)
              :: match auth with Some a => [("auth", a)] | None => [] end
              ++ match channelData with Some d => [("channel_data", d)] | None => [] end).

Definition channelDataOf (opts : list SubscribeOption) : option string :=
  last (map (fun o => match o with WithChannelData d => d end) opts).

Definition set_state (st : subscriptionState) (e : channel) : channel :=
  mkChannel (chn_variant e) (chn_name e) (chn_boundEvents e) st (chn_members e).

(** Modelled from the spec: [Subscribe] of an entry, declared in channel.go.
    "Subscribing to an already-subscribed channel is a no-op success";
    otherwise the entry goes to subscribing, "if authentication is
    required, invoke the external auth collaborator with the channel name
    and the session's socketID (plus any caller-supplied channel data for
    presence channels)", "on auth failure, the entry remains subscribing
    and the error is returned", and "on auth success (or for public
    channels, immediately), send a subscribe protocol envelope containing
    the channel name and, if present, the auth signature and channel
    data". *)
Definition channel_Subscribe (ch : loc) (opts : list SubscribeOption)
    : M (option error) := fun w =>
  match entries w !! ch with
  | None => Panics nilDeref w
  | Some e =>
      match chn_state e with
      | subscribed => Ret None w
      | _ =>
          let w := set_entries (<[ch := set_state subscribing e]> (entries w)) w in
          let c := client w in
          match chn_variant e with
          | Public =>
              SendEvent pusherSubscribe (subscribePayload (chn_name e) None None) "" w
          | Private =>
              match authorize env c (chn_name e) (socketID c) None with
              | inl err => Ret (Some err) w
              | inr (sig, _) =>
                  SendEvent pusherSubscribe
                            (subscribePayload (chn_name e) (Some sig) None) "" w
              end
          | Presence =>
              match authorize env c (chn_name e) (socketID c) (channelDataOf opts) with
              | inl err => Ret (Some err) w
              | inr (sig, data) =>
                  SendEvent pusherSubscribe
                            (subscribePayload (chn_name e) (Some sig) data) "" w
              end
          end
      end
  end.

(** Modelled from the spec: [Unsubscribe] of an entry, declared in
    channel.go: it "sends an unsubscribe protocol envelope". *)
Definition channel_Unsubscribe (ch : loc) : M (option error) := fun w =>
  match entries w !! ch with
  | None => Panics nilDeref w
  | Some e =>
      SendEvent pusherUnsubscribe (VStringMap [("channel", chn_name e)]) "" w
  end.

(** [subChan.handleEvent(event, data)] on the entry at [ch]. *)
Definition channel_handleEvent (ch : loc) (event : string) (data : RawMessage)
    : M unit := fun w =>
  match entries w !! ch with
  | None => Panics nilDeref w
  | Some e =>
      let '(e', gs) := handleEvent env e event data in
      Ret tt (add_goroutines gs (set_entries (<[ch := e']> (entries w)) w))
  end.

(** *** client.go, continued *)

(** The listeners bound to an event name; a nil table has none. *)
Definition boundTo (c : Client) (event : string) : gset loc :=
  default ∅ (m ← boundEvents c; m !! event).

(** The entry registered under a name; a nil registry has none. *)
Definition registered (c : Client) (name : string) : option loc :=
  m ← subscribedChannels c; m !! name.

(** One turn of the loop of [listen]: whether the loop goes on.  The
    deliveries to the bound channels are started in the order of
    [elements]; the source ranges over a map, in no fixed order. *)
Definition listen_turn : M bool :=
  b ← isConnected;
  if negb b then mret false else
  c ← getClient;
  _ ← ws_SetReadDeadline (wrap64 (_activityTimeout c + pongTimeout));
  r ← ws_Receive;
  match r with
  | inl err =>
      b ← isConnected;
      if negb b then mret false else
      _ ← sendError err;
      _ ← modifyClient (set_disconnectErr (Some err));
      _ ← Disconnect;
      mret false
  | inr event =>
      _ ← resetActivityTimer;
      _ ← (if String.eqb (ev_Event event) pusherPing then
             _ ← ws_Send (TextFrame pongPayload); mret tt
           else if String.eqb (ev_Event event) pusherPong then
             mret tt
           else if String.eqb (ev_Event event) pusherError then
             sendError (extractEventError env event)
           else
             c ← getClient;
             _ ← modify (add_goroutines
                           (map (fun boundChan => GoDeliver boundChan event)
                                (elements (boundTo c (ev_Event event)))));
             match registered c (ev_Channel event) with
             | Some subChan =>
                 channel_handleEvent subChan (ev_Event event) (ev_Data event)
             | None => mret tt
             end);
      mret true
  end.

(** [listen], for at most [fuel] turns: [Some tt] when the loop ended. *)
Fixpoint listen (fuel : nat) : M (option unit) :=
  match fuel with
  | O => mret None
  | S n =>
      continue ← listen_turn;
      if negb continue then mret (Some tt) else listen n
  end.

Definition variantOf (channelName : string) : variant :=
  if String.prefix "private-" channelName then Private
  else if String.prefix "presence-" channelName then Presence
  else Public.

Definition Subscribe (channelName : string) (opts : list SubscribeOption)
    : M (loc * option error) :=
  c ← getClient;
  ch ← match registered c channelName with
       | Some ch => mret ch
       | None => fun w =>
           let ch := fresh (dom (entries w)) in
           let baseChan := mkChannel (variantOf channelName) channelName ∅
                                     unsubscribed ∅ in
           let w := set_entries (<[ch := baseChan]> (entries w)) w in
           match subscribedChannels (client w) with
           | None => Panics "assignment to entry in nil map" w
           | Some m =>
               Ret ch (upd_client
                         (set_subscribedChannels (Some (<[channelName := ch]> m))) w)
           end
       end;
  err ← channel_Subscribe ch opts;
  mret (ch, err).

(** The type assertion to the presence channel panics on an entry of
    another variant. *)
Definition SubscribePresence (channelName : string) (opts : list SubscribeOption)
    : M (option loc * option error) :=
  if negb (String.prefix "presence-" channelName) then
    mret (None,
          Some (NewError ("invalid presence channel name, must start with 'presence-': "
                          +:+ channelName)))
  else
    r ← Subscribe channelName opts;
    ((fun w =>
        match chn_variant <$> entries w !! fst r with
        | Some Presence => Ret (Some (fst r), snd r) w
        | _ => Panics "interface conversion: not a presence channel" w
        end) : M (option loc * option error)).

Definition Unsubscribe (channelName : string) : M (option error) :=
  c ← getClient;
  match registered c channelName with
  | None => mret None
  | Some ch =>
      _ ← modifyClient (fun c =>
            set_subscribedChannels (delete channelName <$> subscribedChannels c) c);
      channel_Unsubscribe ch
  end.

End ClientMethods.

(** ** Vocabulary of the statements *)

(** The results the connection has still to hand to [Receive], and the
    frames written on it. *)
Definition unread (w : World) : list (error + Event) :=
  match ws (client w) with Some conn => conn_in conn | None => [] end.

Definition sent (w : World) : list Frame :=
  match ws (client w) with Some conn => conn_out conn | None => [] end.

(** The connection is there and open. *)
Definition transportOpen (w : World) : Prop :=
  exists conn, ws (client w) = Some conn /\ conn_closed conn = false.

(** The effective timeout of a handshake: the override of the caller when
    it is positive, the value of the server otherwise. *)
Definition effectiveTimeout (c : Client) (connData : connectionData) : Duration :=
  if (ActivityTimeout c >? 0)%Z then ActivityTimeout c
  else seconds (cd_ActivityTimeout connData).

(** A send on the channel can proceed. *)
Definition can_send {A : Type} (ch : gochan A) : bool :=
  negb (ch_closed ch)
  && (negb (Nat.eqb (ch_recvq ch) 0) || Nat.ltb (List.length (ch_buf ch)) (ch_cap ch)).

(** [ch'] is [ch] after it accepted the one value [v]: a parked receiver
    took it, or it is the last of the buffer. *)
Definition received_one {A : Type} (ch : gochan A) (v : A) (ch' : gochan A) : Prop :=
  (ch_taken ch' = ch_taken ch ++ [v] /\ ch_buf ch' = ch_buf ch)
  \/ (ch_taken ch' = ch_taken ch /\ ch_buf ch' = ch_buf ch ++ [v]).

(** A close listener that is a channel of the heap on which a send can
    proceed. *)
Definition listening (w : World) (r : option loc) : Prop :=
  exists l ch, r = Some l /\ errchans w !! l = Some ch /\ can_send ch = true.

(** What [Disconnect] sends: the recorded cause, wrapped, or nil. *)
Definition closeSignal (c : Client) : option error :=
  match disconnectErr c with
  | Some e => Some (WrapError "pusher connection closed with error: " e)
  | None => None
  end.

(** What [Disconnect] returns: the result of closing the transport. *)
Definition closeResult (c : Client) : option error :=
  match ws c with
  | Some conn => if conn_closed conn then Some errClosedConn else None
  | None => None
  end.

(** The number of reset requests waiting in the slot. *)
Definition pendingResets (c : Client) : nat :=
  match activityTimerReset c with
  | Some ch => List.length (ch_buf ch)
  | None => 0
  end.

(** The reset slot as [Connect] makes it and as the methods keep it: one
    place, open, read only by the loop of [heartbeat]. *)
Definition resetSlot (c : Client) : Prop :=
  exists ch, activityTimerReset c = Some ch
             /\ ch_cap ch = 1 /\ ch_recvq ch = 0 /\ ch_closed ch = false
             /\ List.length (ch_buf ch) <= 1.

(** The reset channel, when there is one, is not closed. *)
Definition resetOpen (c : Client) : Prop :=
  forall ch, activityTimerReset c = Some ch -> ch_closed ch = false.


(** The goroutines started between two worlds. *)
Definition started (w w' : World) : list goroutine :=
  drop (List.length (goroutines w)) (goroutines w').

(** The reserved event names of the protocol. *)
Definition reservedNames : list string :=
  [pusherConnEstablished; pusherPing; pusherPong; pusherError;
   pusherSubSucceeded; pusherInternalSubSucceeded;
   pusherInternalMemberAdded; pusherInternalMemberRemoved].

(** The error channel of the client, when it is a channel of the heap, is
    not closed. *)
Definition errorsOpen (w : World) : Prop :=
  forall ch, deref (Errors (client w)) w = Some ch -> ch_closed ch = false.

(** The parts of the world that sending an event leaves alone. *)
Definition sameRegistry (w w' : World) : Prop :=
  subscribedChannels (client w') = subscribedChannels (client w)
  /\ boundEvents (client w') = boundEvents (client w)
  /\ connected (client w') = connected (client w)
  /\ entries w' = entries w
  /\ errchans w' = errchans w
  /\ goroutines w' = goroutines w.

(** The cases of the switch of [listen] on the event name. *)
Definition listen_switch (env : Env) (event : Event) : M unit :=
  if String.eqb (ev_Event event) pusherPing then
    _ ← ws_Send (TextFrame pongPayload); mret tt
  else if String.eqb (ev_Event event) pusherPong then
    mret tt
  else if String.eqb (ev_Event event) pusherError then
    sendError (extractEventError env event)
  else
    c ← getClient;
    _ ← modify (add_goroutines
                  (map (fun boundChan => GoDeliver boundChan event)
                       (elements (boundTo c (ev_Event event)))));
    match registered c (ev_Channel event) with
    | Some subChan =>
        channel_handleEvent env subChan (ev_Event event) (ev_Data event)
    | None => mret tt
    end.

(** ** A small environment for examples *)

Definition backslash : Ascii.ascii :=
  Ascii.Ascii false false true true true false true false.
Definition dquoteChar : Ascii.ascii :=
  Ascii.Ascii false true false false false true false false.

(** A JSON string literal for a text without control characters. *)
Fixpoint json_escape (s : string) : string :=
  match s with
  | EmptyString => EmptyString
  | String a rest =>
      if Ascii.eqb a dquoteChar || Ascii.eqb a backslash
      then String backslash (String a (json_escape rest))
      else String a (json_escape rest)
  end.

Definition json_quote (s : string) : string := quoted (json_escape s).

Definition bytes (s : string) : list Byte.byte := list_byte_of_string s.

(** [{"socket_id":"123.456","activity_timeout":120}] *)
Definition establishedDoc : string :=
  Eval cbv in
    "{" +:+ quoted "socket_id" +:+ ":" +:+ quoted "123.456" +:+ ","
        +:+ quoted "activity_timeout" +:+ ":120}".

Definition establishedEvent : Event :=
  mkEvent pusherConnEstablished (bytes (json_quote establishedDoc)) "".

(** [{"code":4001,"message":"Application does not exist"}] *)
Definition errorDoc : string :=
  Eval cbv in
    "{" +:+ quoted "code" +:+ ":4001," +:+ quoted "message" +:+ ":"
        +:+ quoted "Application does not exist" +:+ "}".

Definition errorEvent : Event :=
  mkEvent pusherError (bytes (json_quote errorDoc)) "".

Definition jsonPair (kv : string * string) : string :=
  json_quote kv.1 +:+ ":" +:+ json_quote kv.2.

Definition demoEnv (script : list (error + Event)) : Env :=
  mkEnv
    (fun _ _ _ => inr script)
    (fun raw =>
       let s := string_of_list_byte raw in
       if String.eqb s (json_quote establishedDoc) then inr establishedDoc
       else if String.eqb s (json_quote errorDoc) then inr errorDoc
       else inl (NewError "json: cannot unmarshal into Go value of type string"))
    (fun raw =>
       if String.eqb (string_of_list_byte raw) establishedDoc
       then inr (mkConnectionData "123.456" 120)
       else inl (NewError "json: cannot unmarshal into Go value of type connectionData"))
    (fun v =>
       match v with
       | VString s => inr (bytes (json_quote s))
       | VStringMap kv =>
           inr (bytes ("{" +:+ String.concat "," (map jsonPair kv) +:+ "}"))
       | VOpaque _ => inl (NewError "json: unsupported type")
       end)
    (fun event =>
       if String.eqb (string_of_list_byte (ev_Data event)) (json_quote errorDoc)
       then NewError "Pusher error 4001: Application does not exist"
       else NewError "json: cannot unmarshal into Go value of type EventError")
    (fun e event data =>
       (if String.eqb event pusherInternalSubSucceeded then set_state subscribed e else e,
        map (fun boundChan => GoDeliverData boundChan data)
            (elements (default ∅ (chn_boundEvents e !! event)))))
    (fun _ _ _ data => inr ("key:signature", data)).

(** A caller with one buffered channel for errors (location 0) and two
    buffered close listeners (locations 1 and 2). *)
Definition demoWorld (activityTimeout : Duration) : World :=
  mkWorld (set_closes [Some 1; Some 2]
             (newClient "" false "" (Some 0) activityTimeout))
          (<[0 := make_chan 1]> (<[1 := make_chan 1]> (<[2 := make_chan 1]> ∅)))
          ∅ ∅ [].

(** The world a method returned in, or the given one. *)
Definition after {A : Type} (o : outcome A) (w0 : World) : World :=
  match o with Ret _ w => w | _ => w0 end.

(** The caller above after a handshake with a server that suggests 120
    seconds and will then send [script]. *)
Definition demoConnected (activityTimeout : Duration) (script : list (error + Event))
    : World :=
  after (Connect (demoEnv (inr establishedEvent :: script)) "key"
                 (demoWorld activityTimeout))
        (demoWorld activityTimeout).

(** The connected caller after the read loop recorded a read failure. *)
Definition demoFailed (err : error) : World :=
  upd_client (set_disconnectErr (Some err)) (demoConnected 0%Z []).

(** A subscription-succeeded envelope and a ping, as a server sends them. *)
Definition subSucceededEvent : Event :=
  mkEvent pusherSubSucceeded (bytes (json_quote "{}")) "my-channel".

Definition pingEvent : Event :=
  mkEvent pusherPing (bytes (json_quote "{}")) "".

(** The connected caller after [Bind] for the name of the next envelope. *)
Definition demoBound (event : Event) : World :=
  after (Bind (ev_Event event) (demoConnected 0%Z [inr event]))
        (demoConnected 0%Z [inr event]).

(** The connected caller after one and after two calls of [Subscribe] for
    the same public channel, with no envelope read between them. *)
Definition demoSubscribedOnce : World :=
  after (Subscribe (demoEnv []) "my-channel" [] (demoConnected 0%Z []))
        (demoConnected 0%Z []).

Definition demoSubscribedTwice : World :=
  after (Subscribe (demoEnv []) "my-channel" [] demoSubscribedOnce)
        demoSubscribedOnce.

(** ** Further vocabulary *)

(** A close listener on which a send cannot proceed: a nil channel, or an
    open channel with a full buffer and no receiver. *)
Definition unready (w : World) (r : option loc) : Prop :=
  match deref r w with
  | None => True
  | Some ch => ch_closed ch = false /\ can_send ch = false
  end.

(** A running timer has no tick waiting in its channel. *)
Definition timerOk (t : Timer) : Prop := tm_armed t = true -> tm_C t = false.

(** Every channel bound to an event name was made by [Bind]. *)
Definition boundAllocated (w : World) : Prop :=
  forall event boundChan,
    boundChan ∈ boundTo (client w) event -> boundChan ∈ evchans w.

(** The caller of the examples with the same channel registered twice as
    close listener. *)
Definition demoTwice : World :=
  upd_client (set_closes [Some 1; Some 1]) (demoConnected 0%Z []).

(** The caller of the examples with an unbuffered close listener that
    nobody reads (location 3) behind a buffered one. *)
Definition demoUnbuffered : World :=
  set_errchans (<[3 := make_chan 0]> (errchans (demoConnected 0%Z [])))
    (upd_client (set_closes [Some 1; Some 3]) (demoConnected 0%Z [])).

(** The connected caller of the examples after [Disconnect]. *)
Definition demoDisconnected : World :=
  after (Disconnect (demoConnected 0%Z [])) (demoConnected 0%Z []).

(** An envelope of an application, with no channel name. *)
Definition greetingEvent : Event :=
  mkEvent "greeting" (bytes (json_quote "{}")) "".

(** The connected caller after two calls of [Bind] for the name of the
    next envelope. *)
Definition demoBoundTwice (event : Event) : World :=
  after (Bind (ev_Event event) (demoBound event)) (demoBound event).



(** Every registered entry is in the heap with the variant that the prefix
    of its name gives. *)
Definition registryOk (w : World) : Prop :=
  forall name l,
    registered (client w) name = Some l ->
    exists e, entries w !! l = Some e /\ chn_variant e = variantOf name.

(** The connected caller after [Subscribe] for a presence channel. *)
Definition demoPresence : World :=
  after (Subscribe (demoEnv []) "presence-room" [] (demoConnected 0%Z []))
        (demoConnected 0%Z []).

(** The connected caller after registering once more, with [NotifyClose],
    a channel that is already a close listener. *)
Definition demoRegisteredAgain : World :=
  after (NotifyClose (Some 1) (demoConnected 0%Z [])) (demoConnected 0%Z []).

(** The caller that never connected, after registering a nil channel with
    [NotifyClose]. *)
Definition demoNilListener : World :=
  after (NotifyClose None (demoWorld 0%Z)) (demoWorld 0%Z).

(** * Properties *)

(** ** Arithmetic of durations *)

Lemma wrap64_small (z : Z) :
  (- 2 ^ 63 <= z < 2 ^ 63)%Z -> wrap64 z = z.
Proof.
  intros H. unfold wrap64.
  rewrite Z.mod_small by lia. lia.
Qed.

Lemma seconds_exact (n : Z) :
  (- 2 ^ 63 <= n * 1000000000 < 2 ^ 63)%Z -> seconds n = (n * 1000000000)%Z.
Proof. intros H. unfold seconds, Second. now apply wrap64_small. Qed.

(** ** The handshake of [Connect] *)

Ltac run :=
  cbv beta iota delta [mbind M_bind mret M_ret getClient modifyClient modify go
                       isConnected panic block];
  cbn [client upd_client].

Section Handshake.

Context (env : Env).

(** What a call of [Connect] does, by the answer of the dial and the first
    result of a receive. *)
Lemma Connect_unfold (appKey : string) (w : World) :
  Connect env appKey w =
  match websocket_Dial env (generateConnURL (client w) appKey) "" localOrigin with
  | inl err => Ret (Some err) (upd_client (set_ws None) w)
  | inr [] => Blocks (upd_client (set_ws (Some (mkConn [] [] false))) w)
  | inr (r :: rest) =>
      let w1 := upd_client (set_ws (Some (mkConn rest [] false))) w in
      match r with
      | inl err => Ret (Some err) w1
      | inr event =>
          if String.eqb (ev_Event event) pusherError then
            Ret (Some (extractEventError env event)) w1
          else if String.eqb (ev_Event event) pusherConnEstablished then
            match UnmarshalDataString env (json_Unmarshal_connectionData env)
                                      (ev_Data event) with
            | inl err => Ret (Some err) w1
            | inr connData =>
                Ret None
                  (add_goroutines [GoListen]
                     (add_goroutines [GoHeartbeat]
                        (upd_client (fun c => set_session (cd_SocketID connData)
                                                (effectiveTimeout c connData) c) w1)))
            end
          else Ret (Some (NewError ("Got unknown event type from Pusher: "
                                    +:+ ev_Event event))) w1
      end
  end.
Proof.
  unfold Connect. run.
  destruct (websocket_Dial env _ _ _) as [err | [ | [err | event] rest]]; try reflexivity.
  unfold ws_Receive; cbn.
  destruct (String.eqb (ev_Event event) pusherError); [reflexivity |].
  destruct (String.eqb (ev_Event event) pusherConnEstablished); [| reflexivity].
  destruct (UnmarshalDataString _ _ _); reflexivity.
Qed.

(** A call that returns an error leaves the flag [connected] as it was. *)
Lemma Connect_error_connected (appKey : string) (w w' : World) (err : error) :
  Connect env appKey w = Ret (Some err) w' ->
  connected (client w') = connected (client w).
Proof.
  rewrite Connect_unfold.
  destruct (websocket_Dial env _ _ _) as [e | [ | [e | event] rest]]; cbn.
  - intros [= _ <-]. reflexivity.
  - discriminate.
  - intros [= _ <-]. reflexivity.
  - destruct (String.eqb (ev_Event event) pusherError).
    { intros [= _ <-]. reflexivity. }
    destruct (String.eqb (ev_Event event) pusherConnEstablished).
    + destruct (UnmarshalDataString _ _ _); [| discriminate].
      intros [= _ <-]. reflexivity.
    + intros [= _ <-]. reflexivity.
Qed.

(** A call that returns no error has read the connection-established
    envelope and decoded its payload. *)
Lemma Connect_success (appKey : string) (w w' : World) :
  Connect env appKey w = Ret None w' ->
  exists event rest connData,
    websocket_Dial env (generateConnURL (client w) appKey) "" localOrigin
      = inr (inr event :: rest)
    /\ ev_Event event = pusherConnEstablished
    /\ UnmarshalDataString env (json_Unmarshal_connectionData env) (ev_Data event)
       = inr connData
    /\ client w' = set_session (cd_SocketID connData)
                     (effectiveTimeout (client w) connData)
                     (set_ws (Some (mkConn rest [] false)) (client w)).
Proof.
  rewrite Connect_unfold.
  destruct (websocket_Dial env _ _ _) as [e | [ | [e | event] rest]]; cbn;
    try discriminate.
  destruct (String.eqb (ev_Event event) pusherError) eqn:He; [discriminate |].
  destruct (String.eqb (ev_Event event) pusherConnEstablished) eqn:Hc;
    [| discriminate].
  destruct (UnmarshalDataString _ _ _) as [e | connData] eqn:Hd; [discriminate |].
  intros [= <-]. exists event, rest, connData.
  apply String.eqb_eq in Hc. repeat split; auto.
Qed.

(** C2: after a successful handshake the effective activity timeout is the
    override of the caller whenever that override is greater than zero,
    whatever the server suggested; otherwise it is the integer of the server,
    converted from seconds to a duration (exactly so when the product fits
    the 64 bits of a duration). *)
Theorem Connect_activityTimeout (appKey : string) (w w' : World) :
  Connect env appKey w = Ret None w' ->
  exists event rest connData,
    websocket_Dial env (generateConnURL (client w) appKey) "" localOrigin
      = inr (inr event :: rest)
    /\ UnmarshalDataString env (json_Unmarshal_connectionData env) (ev_Data event)
       = inr connData
    /\ ((ActivityTimeout (client w) > 0)%Z ->
        _activityTimeout (client w') = ActivityTimeout (client w))
    /\ (~ (ActivityTimeout (client w) > 0)%Z ->
        _activityTimeout (client w') = seconds (cd_ActivityTimeout connData)
        /\ ((- 2 ^ 63 <= cd_ActivityTimeout connData * 1000000000 < 2 ^ 63)%Z ->
            _activityTimeout (client w')
            = (cd_ActivityTimeout connData * 1000000000)%Z)).
Proof.
  intros H. apply Connect_success in H as (event & rest & connData & Hd & _ & Hu & Hc).
  exists event, rest, connData. rewrite Hc. cbn. unfold effectiveTimeout.
  repeat split; auto.
  - intros Hpos. apply Z.gtb_gt in Hpos. now rewrite Hpos.
  - destruct (ActivityTimeout (client w) >? 0)%Z eqn:Hg; [| reflexivity].
    apply Z.gtb_gt in Hg. contradiction.
  - intros Hr. destruct (ActivityTimeout (client w) >? 0)%Z eqn:Hg.
    + apply Z.gtb_gt in Hg. contradiction.
    + now apply seconds_exact.
Qed.

(** C3, as the code has it: [Connect] reads exactly one envelope after the
    dial (none when the dial fails).  An error envelope makes it return the
    extracted protocol error.  The connection-established envelope has its
    payload decoded twice, first to a string and then, from the bytes of
    that string, to the socket id and the activity timeout, and the
    session is marked connected; the error of either decoding is
    returned.  Any other event name makes it return the error of an
    unknown event type.  Whenever an error is returned the flag
    [connected] is left as it was before the call: a session that was not
    connected is left not connected. *)
Theorem Connect_handshake (appKey : string) (w : World) :
  (forall err,
     websocket_Dial env (generateConnURL (client w) appKey) "" localOrigin = inl err ->
     Connect env appKey w = Ret (Some err) (upd_client (set_ws None) w))
  /\ (forall err rest,
        websocket_Dial env (generateConnURL (client w) appKey) "" localOrigin
          = inr (inl err :: rest) ->
        exists w', Connect env appKey w = Ret (Some err) w'
                   /\ unread w' = rest
                   /\ connected (client w') = connected (client w))
  /\ (forall event rest,
        websocket_Dial env (generateConnURL (client w) appKey) "" localOrigin
          = inr (inr event :: rest) ->
        (ev_Event event = pusherError ->
         exists w', Connect env appKey w
                    = Ret (Some (extractEventError env event)) w'
                    /\ unread w' = rest
                    /\ connected (client w') = connected (client w))
        /\ (ev_Event event = pusherConnEstablished ->
            (forall err,
               json_Unmarshal_string env (ev_Data event) = inl err ->
               exists w', Connect env appKey w = Ret (Some err) w'
                          /\ unread w' = rest
                          /\ connected (client w') = connected (client w))
            /\ (forall dataStr err,
                  json_Unmarshal_string env (ev_Data event) = inr dataStr ->
                  json_Unmarshal_connectionData env (list_byte_of_string dataStr)
                    = inl err ->
                  exists w', Connect env appKey w = Ret (Some err) w'
                             /\ unread w' = rest
                             /\ connected (client w') = connected (client w))
            /\ (forall dataStr connData,
                  json_Unmarshal_string env (ev_Data event) = inr dataStr ->
                  json_Unmarshal_connectionData env (list_byte_of_string dataStr)
                    = inr connData ->
                  exists w', Connect env appKey w = Ret None w'
                             /\ unread w' = rest
                             /\ socketID (client w') = cd_SocketID connData
                             /\ _activityTimeout (client w')
                                = effectiveTimeout (client w) connData
                             /\ connected (client w') = true))
        /\ (ev_Event event <> pusherError ->
            ev_Event event <> pusherConnEstablished ->
            exists w', Connect env appKey w
                       = Ret (Some (NewError ("Got unknown event type from Pusher: "
                                              +:+ ev_Event event))) w'
                       /\ unread w' = rest
                       /\ connected (client w') = connected (client w)))
  /\ (forall err w', Connect env appKey w = Ret (Some err) w' ->
                     connected (client w') = connected (client w))
  /\ (connected (client w) = false ->
      forall err w', Connect env appKey w = Ret (Some err) w' ->
                     connected (client w') = false).
Proof.
  split; [| split; [| split; [| split]]].
  - intros err Hdial. now rewrite Connect_unfold, Hdial.
  - intros err rest Hdial. rewrite Connect_unfold, Hdial. cbn.
    eexists. split; [reflexivity |]. split; [reflexivity |].
    cbn. now destruct (client w).
  - intros event rest Hdial. rewrite Connect_unfold, Hdial. cbn.
    assert (Hkeep : connected (set_ws (Some (mkConn rest [] false)) (client w))
                    = connected (client w)) by now destruct (client w).
    split; [| split].
    + intros He. rewrite He. cbn. eexists. repeat split; auto.
    + intros He. rewrite He. cbn. unfold UnmarshalDataString.
      split; [| split].
      * intros err H1. rewrite H1. eexists. repeat split; auto.
      * intros dataStr err H1 H2. rewrite H1, H2. eexists. repeat split; auto.
      * intros dataStr connData H1 H2. rewrite H1, H2. cbn.
        eexists. repeat split; auto.
    + intros He Hc. apply String.eqb_neq in He, Hc. rewrite He, Hc.
      eexists. repeat split; auto.
  - intros err w'. apply Connect_error_connected.
  - intros Hnc err w' H. apply Connect_error_connected in H. congruence.
Qed.

End Handshake.

(** The server suggests 120 seconds and the caller overrides with 5. *)
Lemma Connect_activityTimeout_witness :
  Connect (demoEnv [inr establishedEvent]) "key" (demoWorld 5000000000%Z)
    = Ret None (demoConnected 5000000000%Z [])
  /\ _activityTimeout (client (demoConnected 5000000000%Z [])) = 5000000000%Z
  /\ _activityTimeout (client (demoConnected 0%Z [])) = (120 * Second)%Z.
Proof.
  split; [reflexivity |].
  destruct (Connect_activityTimeout (demoEnv [inr establishedEvent]) "key"
              (demoWorld 5000000000%Z) (demoConnected 5000000000%Z []) eq_refl)
    as (event & rest & connData & _ & _ & Hover & _).
  split; [apply Hover; reflexivity |].
  destruct (Connect_activityTimeout (demoEnv [inr establishedEvent]) "key"
              (demoWorld 0%Z) (demoConnected 0%Z []) eq_refl)
    as (event' & rest' & connData' & Hdial & Hdec & _ & Hserver).
  destruct (Hserver ltac:(discriminate)) as [Hs _].
  rewrite Hs. injection Hdial as <- <-. injection Hdec as <-. reflexivity.
Defined.

(** The server answers the dial with the connection-established envelope,
    and, for another client, with an error envelope. *)
Lemma Connect_handshake_witness :
  (exists w',
     Connect (demoEnv [inr establishedEvent]) "key" (demoWorld 0%Z) = Ret None w'
     /\ unread w' = []
     /\ socketID (client w') = "123.456"
     /\ _activityTimeout (client w') = (120 * Second)%Z
     /\ connected (client w') = true)
  /\ (exists w',
        Connect (demoEnv [inr errorEvent]) "key" (demoWorld 0%Z)
          = Ret (Some (NewError "Pusher error 4001: Application does not exist")) w'
        /\ unread w' = [] /\ connected (client w') = false).
Proof.
  split.
  - destruct (Connect_handshake (demoEnv [inr establishedEvent]) "key"
                (demoWorld 0%Z)) as (_ & _ & Hevent & _).
    destruct (Hevent establishedEvent [] eq_refl) as (_ & Hestablished & _).
    destruct (Hestablished eq_refl) as (_ & _ & Hok).
    exact (Hok establishedDoc (mkConnectionData "123.456" 120) eq_refl eq_refl).
  - destruct (Connect_handshake (demoEnv [inr errorEvent]) "key" (demoWorld 0%Z))
      as (_ & _ & Hevent & _).
    destruct (Hevent errorEvent [] eq_refl) as (Herror & _).
    exact (Herror eq_refl).
Defined.

(** C3 fails as stated: on a session that is connected, a [Connect] that
    reads an error envelope returns the error and leaves the session
    marked connected. *)
Lemma Connect_failure_keeps_connected :
  ~ (forall (env : Env) (appKey : string) (w w' : World) (err : error),
        Connect env appKey w = Ret (Some err) w' ->
        connected (client w') = false).
Proof.
  intros H.
  specialize (H (demoEnv [inr errorEvent]) "key" (demoConnected 0%Z [])
                (upd_client (set_ws (Some (mkConn [] [] false)))
                            (demoConnected 0%Z []))
                (NewError "Pusher error 4001: Application does not exist")
                eq_refl).
  discriminate H.
Qed.

(** ** Sends on a channel *)

Lemma chansend_can_send {A : Type} (ch : gochan A) (v : A) :
  can_send ch = true ->
  exists ch', chansend ch v = SendOk ch'
              /\ received_one ch v ch'
              /\ ch_closed ch' = false /\ ch_cap ch' = ch_cap ch.
Proof.
  unfold can_send, chansend, received_one. destruct ch as [cap buf q taken cl]; cbn.
  destruct cl; cbn; [discriminate |].
  destruct q as [| q]; cbn.
  - intros ->. eexists. split; [reflexivity |]. cbn. auto.
  - intros _. eexists. split; [reflexivity |]. cbn. auto.
Qed.

Lemma chansend_cannot_send {A : Type} (ch : gochan A) (v : A) :
  ch_closed ch = false -> can_send ch = false -> chansend ch v = SendNotReady.
Proof.
  unfold can_send, chansend. destruct ch as [cap buf q taken cl]; cbn.
  intros ->. cbn. destruct q as [| q]; cbn; [| discriminate].
  now intros ->.
Qed.

(** A send never leaves more in the buffer than the capacity. *)
Lemma chansend_buffer {A : Type} (ch ch' : gochan A) (v : A) :
  chansend ch v = SendOk ch' ->
  List.length (ch_buf ch) <= ch_cap ch ->
  List.length (ch_buf ch') <= ch_cap ch' /\ ch_cap ch' = ch_cap ch.
Proof.
  unfold chansend. destruct ch as [cap buf q taken cl]; cbn.
  destruct cl; [discriminate |]. destruct q as [| q].
  - match goal with
    | |- context [if ?b then _ else _] => destruct b eqn:Hlt
    end; [| discriminate].
    intros [= <-] _. cbn. apply Nat.ltb_lt in Hlt.
    rewrite length_app. cbn. lia.
  - intros [= <-] H. cbn. auto.
Qed.

(** ** The close notification of [Disconnect] *)

Lemma broadcast_cons (ch : option loc) (rest : list (option loc)) (w : World) :
  broadcast (ch :: rest) w =
  (_ ← chan_send ch (closeSignal (client w)); _ ← chan_close ch; broadcast rest) w.
Proof.
  cbn [broadcast]. unfold closeSignal. run.
  destruct (disconnectErr (client w)); reflexivity.
Qed.

(** With listeners that are distinct channels ready for a send, the loop
    runs to its end: every listener takes the signal once and is closed,
    and nothing else changes. *)
Lemma broadcast_spec (chs : list (option loc)) :
  forall w : World,
    NoDup chs -> Forall (listening w) chs ->
    exists w',
      broadcast chs w = Ret tt w'
      /\ client w' = client w /\ evchans w' = evchans w
      /\ entries w' = entries w /\ goroutines w' = goroutines w
      /\ (forall l, Some l ∉ chs -> errchans w' !! l = errchans w !! l)
      /\ (forall l, Some l ∈ chs ->
            exists ch ch', errchans w !! l = Some ch
                           /\ errchans w' !! l = Some ch'
                           /\ received_one ch (closeSignal (client w)) ch'
                           /\ ch_closed ch' = true).
Proof.
  induction chs as [| r rest IH]; intros w Hnd Hall.
  - exists w. cbn. repeat split; auto. intros l Hl. inversion Hl.
  - apply NoDup_cons in Hnd as [Hnotin Hnd].
    apply Forall_cons in Hall as [(l0 & ch0 & -> & Hl0 & Hready) Hall].
    destruct (chansend_can_send ch0 (closeSignal (client w)) Hready)
      as (ch1 & Hsend & Hone & Hopen & _).
    set (ch2 := mkChan (ch_cap ch1) (ch_buf ch1) 0 (ch_taken ch1) true).
    set (w2 := set_errchans (<[l0 := ch2]> (<[l0 := ch1]> (errchans w))) w).
    assert (Hstep : forall k : unit -> M unit,
               (_ ← chan_send (Some l0) (closeSignal (client w));
                _ ← chan_close (Some l0); k tt) w = k tt w2).
    { intros k. run. unfold chan_send, chan_close, deref, store. cbn.
      rewrite Hl0, Hsend. cbn. rewrite lookup_insert_eq, Hopen. reflexivity. }
    assert (Hall2 : Forall (listening w2) rest).
    { apply Forall_forall. intros r Hr.
      rewrite Forall_forall in Hall. destruct (Hall r Hr) as (l & ch & -> & Hl & Hc).
      assert (l0 <> l) by (intros ->; contradiction).
      exists l, ch. repeat split; auto. unfold w2; cbn.
      now rewrite !lookup_insert_ne by auto. }
    destruct (IH w2 Hnd Hall2) as (w' & Hrun & Hc & Hev & Hen & Hgo & Hother & Hin).
    exists w'. rewrite broadcast_cons.
    rewrite (Hstep (fun _ => broadcast rest)).
    repeat split; auto.
    + intros l Hl. apply not_elem_of_cons in Hl as [Hne Hl].
      assert (l0 <> l) by congruence.
      rewrite Hother by auto.
      unfold w2; cbn. now rewrite !lookup_insert_ne by auto.
    + intros l Hl. apply elem_of_cons in Hl as [[= ->] | Hl].
      * exists ch0, ch2. split; [exact Hl0 |].
        split; [rewrite Hother by auto; unfold w2; cbn; apply lookup_insert_eq |].
        split; [exact Hone | reflexivity].
      * destruct (Hin l Hl) as (ch & ch' & Hl1 & Hl2 & Hr & Hcl).
        assert (l <> l0) by (intros ->; contradiction).
        exists ch, ch'. repeat split; auto.
        unfold w2 in Hl1; cbn in Hl1. now rewrite !lookup_insert_ne in Hl1 by auto.
Qed.

Lemma Disconnect_spec (w : World) :
  NoDup (closes (client w)) -> Forall (listening w) (closes (client w)) ->
  exists w',
    Disconnect w = Ret (closeResult (client w)) w'
    /\ connected (client w') = false
    /\ closes (client w') = []
    /\ disconnectErr (client w') = disconnectErr (client w)
    /\ (ws (client w) = None -> ws (client w') = None)
    /\ boundEvents (client w') = boundEvents (client w)
    /\ subscribedChannels (client w') = subscribedChannels (client w)
    /\ (forall l, Some l ∉ closes (client w) -> errchans w' !! l = errchans w !! l)
    /\ (forall l, Some l ∈ closes (client w) ->
          exists ch ch', errchans w !! l = Some ch
                         /\ errchans w' !! l = Some ch'
                         /\ received_one ch (closeSignal (client w)) ch'
                         /\ ch_closed ch' = true).
Proof.
  intros Hnd Hall.
  set (w0 := upd_client (set_connected false) w).
  destruct (broadcast_spec (closes (client w)) w0 Hnd) as
    (w1 & Hrun & Hc & _ & _ & _ & Hother & Hin).
  { apply Forall_forall. intros r Hr. rewrite Forall_forall in Hall.
    destruct (Hall r Hr) as (l & ch & -> & Hl & Hs). now exists l, ch. }
  unfold Disconnect. run.
  change (broadcast _ _) with (broadcast (closes (client w)) w0).
  rewrite Hrun. cbn.
  rewrite Hc. unfold closeResult, ws_Close. cbn.
  destruct (ws (client w)) as [conn |] eqn:Hws; cbn; rewrite ?Hc; cbn; rewrite ?Hws.
  - destruct (conn_closed conn); eexists; (split; [reflexivity |]); cbn;
      rewrite ?Hc; cbn; repeat split; auto; discriminate.
  - eexists; (split; [reflexivity |]); cbn; rewrite ?Hc; cbn; repeat split; auto.
Qed.

(** Without listeners [Disconnect] touches no channel. *)
Lemma Disconnect_no_listeners (w : World) :
  closes (client w) = [] -> errchans (final (Disconnect w)) = errchans w.
Proof.
  intros H. destruct (ws (client w)) as [conn |] eqn:Hws;
    unfold Disconnect; run; cbn; rewrite H; cbn; rewrite Hws;
    [| reflexivity].
  unfold ws_Close. cbn. rewrite Hws.
  destruct (conn_closed conn); reflexivity.
Qed.

(** C6, as the code has it: with close listeners that are distinct channels
    on each of which a send can proceed (a buffer with room or a waiting
    receiver), [Disconnect] sends exactly one value to every listener
    registered with
    [NotifyClose]: the recorded disconnect cause, wrapped and so not nil,
    or nil when no cause was recorded.  It then closes the channel of each
    listener and clears the list, so that a later [Disconnect] notifies no
    listener again. *)
Theorem Disconnect_notifies_once (w : World) :
  NoDup (closes (client w)) -> Forall (listening w) (closes (client w)) ->
  exists r w',
    Disconnect w = Ret r w'
    /\ (forall l, Some l ∈ closes (client w) ->
          exists ch ch', errchans w !! l = Some ch
                         /\ errchans w' !! l = Some ch'
                         /\ received_one ch (closeSignal (client w)) ch'
                         /\ ch_closed ch' = true)
    /\ (forall e, disconnectErr (client w) = Some e ->
          closeSignal (client w)
          = Some (WrapError "pusher connection closed with error: " e))
    /\ (disconnectErr (client w) = None -> closeSignal (client w) = None)
    /\ closes (client w') = []
    /\ errchans (final (Disconnect w')) = errchans w'.
Proof.
  intros Hnd Hall.
  destruct (Disconnect_spec w Hnd Hall)
    as (w' & Hrun & _ & Hcl & _ & _ & _ & _ & _ & Hin).
  exists (closeResult (client w)), w'. repeat split; auto.
  - intros e He. unfold closeSignal. now rewrite He.
  - intros He. unfold closeSignal. now rewrite He.
  - now apply Disconnect_no_listeners.
Qed.

(** C10, as the code has it: on a client whose connection was never
    established, with close listeners that are distinct channels on each
    of which a send can proceed, [Disconnect]
    returns nil: the session is marked not connected, every listener takes
    one nil value and is closed, and the absent transport is not closed. *)
Theorem Disconnect_never_connected (w : World) :
  ws (client w) = None -> disconnectErr (client w) = None ->
  NoDup (closes (client w)) -> Forall (listening w) (closes (client w)) ->
  exists w',
    Disconnect w = Ret None w'
    /\ connected (client w') = false
    /\ ws (client w') = None
    /\ closes (client w') = []
    /\ (forall l, Some l ∈ closes (client w) ->
          exists ch ch', errchans w !! l = Some ch
                         /\ errchans w' !! l = Some ch'
                         /\ received_one ch None ch'
                         /\ ch_closed ch' = true).
Proof.
  intros Hws Herr Hnd Hall.
  destruct (Disconnect_spec w Hnd Hall)
    as (w' & Hrun & Hconn & Hcl & _ & Hws' & _ & _ & _ & Hin).
  exists w'. unfold closeResult in Hrun. rewrite Hws in Hrun.
  unfold closeSignal in Hin. rewrite Herr in Hin.
  repeat split; auto.
Qed.

Lemma demo_listeners (w : World) :
  closes (client w) = [Some 1; Some 2] ->
  errchans w !! 1 = Some (make_chan 1) ->
  errchans w !! 2 = Some (make_chan 1) ->
  NoDup (closes (client w)) /\ Forall (listening w) (closes (client w)).
Proof.
  intros -> H1 H2. split.
  - apply NoDup_cons. split; [| apply NoDup_singleton].
    intros H. apply list_elem_of_singleton in H. discriminate.
  - repeat apply Forall_cons_2; [| | apply Forall_nil_2].
    + exists 1, (make_chan 1). auto.
    + exists 2, (make_chan 1). auto.
Defined.

(** The session of the example after a read failure was recorded. *)
Lemma Disconnect_notifies_once_witness :
  NoDup (closes (client (demoFailed (NewError "EOF"))))
  /\ Forall (listening (demoFailed (NewError "EOF")))
            (closes (client (demoFailed (NewError "EOF"))))
  /\ exists r w',
       Disconnect (demoFailed (NewError "EOF")) = Ret r w'
       /\ closes (client w') = []
       /\ exists ch', errchans w' !! 1 = Some ch'
                      /\ ch_buf ch'
                         = [Some (WrapError "pusher connection closed with error: "
                                            (NewError "EOF"))]
                      /\ ch_closed ch' = true.
Proof.
  destruct (demo_listeners (demoFailed (NewError "EOF")) eq_refl eq_refl eq_refl)
    as [Hnd Hall].
  split; [exact Hnd |]. split; [exact Hall |].
  destruct (Disconnect_notifies_once (demoFailed (NewError "EOF")) Hnd Hall)
    as (r & w' & Hrun & Hin & _ & _ & Hcl & _).
  exists r, w'. split; [exact Hrun |]. split; [exact Hcl |].
  destruct (Hin 1) as (ch & ch' & Hl & Hl' & Hone & Hclosed).
  { apply list_elem_of_here. }
  exists ch'. split; [exact Hl' |]. split; [| exact Hclosed].
  injection Hl as <-. destruct Hone as [[Ht Hb] | [Ht Hb]]; rewrite Hb.
  - vm_compute in Hrun. injection Hrun as _ <-. vm_compute in Hl'.
    injection Hl' as <-. discriminate Ht.
  - reflexivity.
Defined.

(** A client that never connected, with its two listeners. *)
Lemma Disconnect_never_connected_witness :
  ws (client (demoWorld 0%Z)) = None
  /\ disconnectErr (client (demoWorld 0%Z)) = None
  /\ exists w',
       Disconnect (demoWorld 0%Z) = Ret None w'
       /\ connected (client w') = false
       /\ ws (client w') = None
       /\ closes (client w') = [].
Proof.
  split; [reflexivity |]. split; [reflexivity |].
  destruct (demo_listeners (demoWorld 0%Z) eq_refl eq_refl eq_refl) as [Hnd Hall].
  destruct (Disconnect_never_connected (demoWorld 0%Z) eq_refl eq_refl Hnd Hall)
    as (w' & Hrun & Hconn & Hws & Hcl & _).
  exists w'. auto.
Defined.

(** C6 fails as stated: a channel registered a second time with
    [NotifyClose] is closed after its first signal, and [Disconnect]
    panics at the second send, before the list of listeners is cleared. *)
Lemma Disconnect_listener_registered_twice :
  ~ (forall (w0 w : World) (listener : option loc),
        NotifyClose listener w0 = Ret listener w ->
        exists r w',
          Disconnect w = Ret r w'
          /\ (forall l, Some l ∈ closes (client w) ->
                exists ch ch', errchans w !! l = Some ch
                               /\ errchans w' !! l = Some ch'
                               /\ received_one ch (closeSignal (client w)) ch'
                               /\ ch_closed ch' = true)
          /\ closes (client w') = []).
Proof.
  intros H.
  destruct (H (demoConnected 0%Z []) demoRegisteredAgain (Some 1) eq_refl)
    as (r & w' & Hrun & _).
  vm_compute in Hrun. discriminate Hrun.
Qed.

(** C10 fails as stated: on a client that never connected, a nil channel
    registered with [NotifyClose] makes [Disconnect] block at the send to
    it, so that nothing is returned. *)
Lemma Disconnect_never_connected_nil_listener :
  ~ (forall w : World,
        ws (client w) = None -> disconnectErr (client w) = None ->
        exists w',
          Disconnect w = Ret None w'
          /\ connected (client w') = false
          /\ closes (client w') = []).
Proof.
  intros H.
  destruct (H demoNilListener eq_refl eq_refl) as (w' & Hrun & _).
  vm_compute in Hrun. discriminate Hrun.
Qed.

(** ** The reset slot of the activity timer *)

Lemma set_activityTimerReset_id (w : World) :
  upd_client (set_activityTimerReset (activityTimerReset (client w))) w = w.
Proof. destruct w as [[] ? ? ? ?]. reflexivity. Qed.


(** [Connect] makes the slot, empty. *)
Lemma Connect_resetSlot (env : Env) (appKey : string) (w w' : World) :
  Connect env appKey w = Ret None w' ->
  resetSlot (client w') /\ pendingResets (client w') = 0.
Proof.
  intros H. apply Connect_success in H as (event & rest & connData & _ & _ & _ & Hc).
  rewrite Hc. split; [| reflexivity].
  exists (make_chan 1). cbn. repeat split; auto.
Qed.


(** One request: the call returns, the slot holds one request afterwards,
    and only the slot has changed. *)
Lemma resetActivityTimer_spec (w : World) :
  resetSlot (client w) ->
  exists w',
    resetActivityTimer w = Ret tt w'
    /\ resetSlot (client w')
    /\ pendingResets (client w') = 1
    /\ w' = upd_client (set_activityTimerReset (activityTimerReset (client w'))) w.
Proof.
  intros (ch & Hch & Hcap & Hq & Hcl & Hlen).
  unfold resetActivityTimer, pendingResets. rewrite Hch.
  destruct ch as [cap buf q taken cl]; cbn in *. subst cap q cl.
  unfold chansend; cbn.
  destruct buf as [| x [| y buf]]; cbn in *; try lia.
  - eexists. split; [reflexivity |]. cbn.
    split; [eexists; cbn; repeat split; auto |].
    split; reflexivity.
  - exists w. split; [reflexivity |]. rewrite Hch. cbn.
    split; [eexists; repeat split; eauto |].
    split; [reflexivity |].
    now rewrite <- Hch, set_activityTimerReset_id.
Qed.







(** ** The read loop *)

Section ReadLoop.

Context (env : Env).

(** A turn of the loop that receives an envelope: the envelope is taken
    from the connection, a reset of the activity timer is requested, and
    the switch runs. *)
Lemma listen_turn_event (w : World) (conn : Conn) (event : Event)
    (rest : list (error + Event)) :
  connected (client w) = true ->
  ws (client w) = Some conn -> conn_closed conn = false ->
  conn_in conn = inr event :: rest ->
  listen_turn env w =
  (_ ← resetActivityTimer; _ ← listen_switch env event; mret true)
    (upd_client (set_ws (Some (mkConn rest (conn_out conn) false))) w).
Proof.
  intros Hconn Hws Hopen Hin.
  unfold listen_turn, listen_switch. run. rewrite Hconn. cbn.
  unfold ws_SetReadDeadline, ws_Receive. rewrite Hws. cbn. rewrite Hws, Hopen, Hin.
  reflexivity.
Qed.

Lemma resetActivityTimer_frame (w : World) :
  exists slot,
    final (resetActivityTimer w) = upd_client (set_activityTimerReset slot) w.
Proof.
  unfold resetActivityTimer.
  destruct (activityTimerReset (client w)) as [ch |] eqn:Hch.
  - destruct (chansend ch tt); cbn; eauto;
      exists (Some ch); rewrite <- Hch; now rewrite set_activityTimerReset_id.
  - exists None. rewrite <- Hch. now rewrite set_activityTimerReset_id.
Qed.

Lemma resetActivityTimer_returns (w : World) :
  resetOpen (client w) ->
  exists slot,
    resetActivityTimer w = Ret tt (upd_client (set_activityTimerReset slot) w).
Proof.
  intros Hopen. unfold resetActivityTimer.
  destruct (activityTimerReset (client w)) as [ch |] eqn:Hch.
  - specialize (Hopen ch Hch). unfold chansend. rewrite Hopen.
    destruct (ch_recvq ch); [destruct (Nat.ltb _ _) |]; eauto;
      exists (Some ch); rewrite <- Hch; now rewrite set_activityTimerReset_id.
  - exists None. rewrite <- Hch. now rewrite set_activityTimerReset_id.
Qed.

(** Whatever the switch does for a ping, a pong or a protocol error, it
    starts no goroutine. *)
Lemma listen_switch_protocol (event : Event) (w : World) :
  ev_Event event = pusherPing \/ ev_Event event = pusherPong
  \/ ev_Event event = pusherError ->
  goroutines (final (listen_switch env event w)) = goroutines w.
Proof.
  unfold listen_switch. intros [-> | [-> | ->]]; cbn; run.
  - unfold ws_Send. destruct (ws (client w)) as [conn |]; [| reflexivity].
    destruct (conn_closed conn); reflexivity.
  - reflexivity.
  - unfold sendError. destruct (deref (Errors (client w)) w) as [ch |];
      [| reflexivity].
    destruct (chansend ch _); [| reflexivity | reflexivity].
    destruct (Errors (client w)); reflexivity.
Qed.

(** For any other name the switch starts a delivery to every channel bound
    to the name, before the entry of the channel is called. *)
Lemma listen_switch_default (event : Event) (w : World) :
  ev_Event event <> pusherPing -> ev_Event event <> pusherPong ->
  ev_Event event <> pusherError ->
  exists gs,
    goroutines (final (listen_switch env event w))
    = goroutines w
      ++ map (fun boundChan => GoDeliver boundChan event)
             (elements (boundTo (client w) (ev_Event event)))
      ++ gs.
Proof.
  intros H1 H2 H3. apply String.eqb_neq in H1, H2, H3.
  unfold listen_switch. rewrite H1, H2, H3. run.
  destruct (registered (client w) (ev_Channel event)) as [subChan |].
  - unfold channel_handleEvent. cbn.
    destruct (entries w !! subChan) as [e |]; cbn.
    + destruct (handleEvent env e _ _) as [e' gs]. exists gs. cbn.
      now rewrite <- app_assoc.
    + exists []. now rewrite app_nil_r.
  - exists []. cbn. now rewrite app_nil_r.
Qed.

Lemma final_bind_unit {A : Type} (m : M unit) (k : M A) (w : World)
    (P : World -> Prop) :
  P (final (m w)) ->
  (forall w', m w = Ret tt w' -> P (final (k w'))) ->
  P (final ((_ ← m; k) w)).
Proof.
  intros Hm Hk. run. destruct (m w) as [[] w' | msg w' | w'] eqn:E; cbn in *; auto.
Qed.

(** C1, as the code has it: an envelope received after the handshake whose
    name is ping, pong or error is delivered to no listener of the session,
    whatever was registered with [Bind]: the turn of the read loop starts
    no goroutine.  An envelope with any other name, the other reserved
    names among them, is delivered to every listener that [Bind]
    registered for that name. *)
Theorem listen_protocol_names_not_delivered (w : World) (conn : Conn)
    (event : Event) (rest : list (error + Event)) :
  connected (client w) = true ->
  ws (client w) = Some conn -> conn_closed conn = false ->
  conn_in conn = inr event :: rest ->
  (ev_Event event = pusherPing \/ ev_Event event = pusherPong
   \/ ev_Event event = pusherError ->
   goroutines (final (listen_turn env w)) = goroutines w)
  /\ (ev_Event event <> pusherPing -> ev_Event event <> pusherPong ->
      ev_Event event <> pusherError -> resetOpen (client w) ->
      forall boundChan,
        boundChan ∈ boundTo (client w) (ev_Event event) ->
        GoDeliver boundChan event ∈ started w (final (listen_turn env w))).
Proof.
  intros Hconn Hws Hopen Hin.
  rewrite (listen_turn_event w conn event rest Hconn Hws Hopen Hin).
  set (w1 := upd_client (set_ws (Some (mkConn rest (conn_out conn) false))) w).
  split.
  - intros Hname.
    apply (final_bind_unit resetActivityTimer _ w1
             (fun x => goroutines x = goroutines w)).
    + destruct (resetActivityTimer_frame w1) as [slot ->]. reflexivity.
    + intros w2 Hreset.
      destruct (resetActivityTimer_frame w1) as [slot Hslot].
      rewrite Hreset in Hslot. cbn in Hslot. subst w2.
      apply (final_bind_unit (listen_switch env event) _ _
               (fun x => goroutines x = goroutines w)).
      * now rewrite listen_switch_protocol.
      * intros w3 Hsw. cbn.
        pose proof (listen_switch_protocol event
                      (upd_client (set_activityTimerReset slot) w1) Hname) as Hg.
        rewrite Hsw in Hg. exact Hg.
  - intros H1 H2 H3 Hro boundChan Hb.
    destruct (resetActivityTimer_returns w1) as [slot Hreset].
    { intros ch Hch. apply Hro. destruct w as [[] ? ? ? ?]. exact Hch. }
    set (w2 := upd_client (set_activityTimerReset slot) w1) in *.
    destruct (listen_switch_default event w2 H1 H2 H3) as [gs Hgs].
    assert (Hfinal : goroutines (final ((_ ← resetActivityTimer;
                                          _ ← listen_switch env event; mret true) w1))
                     = goroutines (final (listen_switch env event w2))).
    { run. rewrite Hreset. destruct (listen_switch env event w2) as [[] ? | ? ? | ?];
        reflexivity. }
    unfold started. rewrite Hfinal, Hgs.
    replace (goroutines w2) with (goroutines w) by reflexivity.
    rewrite drop_app_length.
    apply elem_of_app. left. apply list_elem_of_fmap.
    exists boundChan. split; [reflexivity |].
    apply elem_of_elements.
    replace (boundTo (client w2) (ev_Event event))
      with (boundTo (client w) (ev_Event event)); [exact Hb |].
    destruct w as [[] ? ? ? ?]. reflexivity.
Qed.

End ReadLoop.

(** A ping is answered and reaches no listener bound to its name. *)
Lemma listen_protocol_names_not_delivered_witness :
  connected (client (demoBound pingEvent)) = true
  /\ unread (demoBound pingEvent) = [inr pingEvent]
  /\ 0 ∈ boundTo (client (demoBound pingEvent)) pusherPing
  /\ goroutines (final (listen_turn (demoEnv []) (demoBound pingEvent)))
     = goroutines (demoBound pingEvent).
Proof.
  split; [reflexivity |]. split; [reflexivity |].
  split.
  { apply (bool_decide_eq_true_1
             (0 ∈ boundTo (client (demoBound pingEvent)) pusherPing)).
    reflexivity. }
  apply (listen_protocol_names_not_delivered (demoEnv []) (demoBound pingEvent)
           (mkConn [inr pingEvent] [] false) pingEvent []
           eq_refl eq_refl eq_refl eq_refl).
  left. reflexivity.
Defined.

(** C1 fails as stated: a listener registered with [Bind] for the reserved
    name [pusher:subscription_succeeded] is sent the envelope of that
    name. *)
Lemma listen_delivers_reserved_name :
  ~ (forall (env : Env) (w0 w : World) (conn : Conn) (event : Event)
            (rest : list (error + Event)) (boundChan : loc),
        Bind (ev_Event event) w0 = Ret boundChan w ->
        connected (client w) = true ->
        ws (client w) = Some conn -> conn_closed conn = false ->
        conn_in conn = inr event :: rest ->
        In (ev_Event event) reservedNames ->
        GoDeliver boundChan event ∉ started w (final (listen_turn env w))).
Proof.
  intros H.
  apply (H (demoEnv []) (demoConnected 0%Z [inr subSucceededEvent])
           (demoBound subSucceededEvent)
           (mkConn [inr subSucceededEvent] [] false) subSucceededEvent [] 0);
    try reflexivity.
  - cbn. tauto.
  - apply list_elem_of_here.
Qed.

(** ** Protocol errors in the read loop *)

Lemma sendError_spec (err : error) (w : World) :
  errorsOpen w ->
  exists chans,
    sendError err w = Ret tt (set_errchans chans w)
    /\ (deref (Errors (client w)) w = None -> chans = errchans w)
    /\ (forall ch, deref (Errors (client w)) w = Some ch ->
          can_send ch = false -> chans = errchans w)
    /\ (forall ch, deref (Errors (client w)) w = Some ch ->
          can_send ch = true ->
          exists l ch', Errors (client w) = Some l
                        /\ chans = <[l := ch']> (errchans w)
                        /\ received_one ch (Some err) ch').
Proof.
  intros Hopen. unfold sendError.
  destruct (deref (Errors (client w)) w) as [ch |] eqn:Hd.
  - specialize (Hopen ch Hd).
    destruct (can_send ch) eqn:Hs.
    + destruct (chansend_can_send ch (Some err) Hs) as (ch' & Hsend & Hone & _).
      rewrite Hsend.
      destruct (Errors (client w)) as [l |] eqn:He; [| discriminate].
      exists (<[l := ch']> (errchans w)). cbn.
      split; [reflexivity |]. split; [discriminate |].
      split; [intros ch0 [= <-] H; congruence |].
      intros ch0 [= <-] _. exists l, ch'. auto.
    + rewrite (chansend_cannot_send ch (Some err) Hopen Hs).
      exists (errchans w). split; [now destruct w |].
      split; [auto |]. split; [auto |].
      intros ch0 [= <-] H; congruence.
  - exists (errchans w). split; [now destruct w |].
    split; [auto |]. split; discriminate.
Qed.

(** A read failure in a connected session whose error channel is open and
    is not itself a close listener, and whose close listeners are distinct
    channels on each of which a send can proceed: the error is recorded as
    the disconnect cause, and the disconnect that follows sends it,
    wrapped, once to every close listener and closes it. *)
Lemma listen_read_failure (env : Env) (w : World) (conn : Conn) (err : error)
    (rest : list (error + Event)) :
  connected (client w) = true ->
  ws (client w) = Some conn -> conn_closed conn = false ->
  conn_in conn = inl err :: rest ->
  errorsOpen w -> Errors (client w) ∉ closes (client w) ->
  NoDup (closes (client w)) -> Forall (listening w) (closes (client w)) ->
  exists w',
    listen_turn env w = Ret false w'
    /\ connected (client w') = false
    /\ disconnectErr (client w') = Some err
    /\ forall l, Some l ∈ closes (client w) ->
         exists ch ch',
           errchans w !! l = Some ch /\ errchans w' !! l = Some ch'
           /\ received_one ch
                (Some (WrapError "pusher connection closed with error: " err)) ch'
           /\ ch_closed ch' = true.
Proof.
  intros Hconn Hws Hopen Hin Heo Hnotin Hnd Hall.
  set (w1 := upd_client (set_ws (Some (mkConn rest (conn_out conn) false))) w).
  assert (Hderef : deref (Errors (client w1)) w1 = deref (Errors (client w)) w)
    by (destruct w as [[] ? ? ? ?]; reflexivity).
  assert (He : Errors (client w1) = Errors (client w))
    by (destruct w as [[] ? ? ? ?]; reflexivity).
  destruct (sendError_spec err w1) as (chans & Hsend & Hnone & Hfull & Hsent).
  { intros ch Hch. apply Heo. now rewrite <- Hderef. }
  set (w3 := upd_client (set_disconnectErr (Some err)) (set_errchans chans w1)).
  assert (Hcl : closes (client w3) = closes (client w))
    by (destruct w as [[] ? ? ? ?]; reflexivity).
  assert (Hsame : forall l, Some l ∈ closes (client w) ->
                            errchans w3 !! l = errchans w !! l).
  { intros l Hl. change (errchans w3) with chans.
    rewrite Hderef in Hnone, Hfull, Hsent. rewrite He in Hsent.
    destruct (deref (Errors (client w)) w) as [ch |] eqn:Hd;
      [| now rewrite Hnone].
    destruct (can_send ch) eqn:Hs; [| now rewrite (Hfull ch)].
    destruct (Hsent ch eq_refl Hs) as (l0 & ch' & Hl0 & -> & _).
    change (errchans w1) with (errchans w).
    apply lookup_insert_ne. intros ->. apply Hnotin. now rewrite Hl0. }
  destruct (Disconnect_spec w3) as (w' & Hrun & Hc' & _ & Hde & _ & _ & _ & _ & Hin').
  { now rewrite Hcl. }
  { rewrite Hcl. apply Forall_forall. intros r Hr.
    rewrite Forall_forall in Hall. destruct (Hall r Hr) as (l & ch & -> & Hl & Hs).
    exists l, ch. repeat split; auto. now rewrite Hsame. }
  exists w'. split.
  { unfold listen_turn. run. rewrite Hconn. cbn.
    unfold ws_SetReadDeadline, ws_Receive. rewrite Hws. cbn.
    rewrite Hws, Hopen, Hin. cbn.
    change (connected (set_ws _ (client w))) with (connected (client w)).
    rewrite Hconn. cbn. fold w1. rewrite Hsend. cbn. fold w3.
    now rewrite Hrun. }
  split; [exact Hc' |]. split; [rewrite Hde; now destruct w as [[] ? ? ? ?] |].
  intros l Hl. rewrite <- Hcl in Hl.
  destruct (Hin' l Hl) as (ch & ch' & H1 & H2 & H3 & H4).
  exists ch, ch'. rewrite Hcl in Hl. rewrite Hsame in H1 by auto.
  repeat split; auto.
Qed.

(** C9: an envelope named [pusher:error] received after the handshake has
    its extracted error forwarded to the error channel by a send that does
    not block: the channel takes it when a send can proceed, and it is
    dropped when the channel is full or absent.  The turn goes on with the
    session as it was: still connected, the table of bound events, the
    registry, the close listeners and the disconnect cause untouched, the
    transport open with nothing written, and no goroutine started. *)
Theorem listen_protocol_error (env : Env) (w : World) (conn : Conn)
    (event : Event) (rest : list (error + Event)) :
  connected (client w) = true ->
  ws (client w) = Some conn -> conn_closed conn = false ->
  conn_in conn = inr event :: rest ->
  ev_Event event = pusherError ->
  resetOpen (client w) -> errorsOpen w ->
  exists w',
    listen_turn env w = Ret true w'
    /\ (deref (Errors (client w)) w = None -> errchans w' = errchans w)
    /\ (forall ch, deref (Errors (client w)) w = Some ch ->
          can_send ch = false -> errchans w' = errchans w)
    /\ (forall ch, deref (Errors (client w)) w = Some ch ->
          can_send ch = true ->
          exists l ch', Errors (client w) = Some l
                        /\ errchans w' = <[l := ch']> (errchans w)
                        /\ received_one ch (Some (extractEventError env event)) ch')
    /\ connected (client w') = true
    /\ boundEvents (client w') = boundEvents (client w)
    /\ subscribedChannels (client w') = subscribedChannels (client w)
    /\ closes (client w') = closes (client w)
    /\ disconnectErr (client w') = disconnectErr (client w)
    /\ ws (client w') = Some (mkConn rest (conn_out conn) false)
    /\ goroutines w' = goroutines w
    /\ entries w' = entries w.
Proof.
  intros Hconn Hws Hopen Hin Hname Hro Heo.
  rewrite (listen_turn_event env w conn event rest Hconn Hws Hopen Hin).
  set (w1 := upd_client (set_ws (Some (mkConn rest (conn_out conn) false))) w).
  destruct (resetActivityTimer_returns w1) as [slot Hreset].
  { intros ch Hch. apply Hro. destruct w as [[] ? ? ? ?]. exact Hch. }
  set (w2 := upd_client (set_activityTimerReset slot) w1) in *.
  assert (Hderef : deref (Errors (client w2)) w2 = deref (Errors (client w)) w)
    by (destruct w as [[] ? ? ? ?]; reflexivity).
  destruct (sendError_spec (extractEventError env event) w2)
    as (chans & Hsend & Hnone & Hfull & Hsent).
  { intros ch Hch. apply Heo. now rewrite <- Hderef. }
  exists (set_errchans chans w2).
  split.
  { run. rewrite Hreset. unfold listen_switch. rewrite Hname. cbn.
    rewrite Hsend. reflexivity. }
  rewrite Hderef in Hnone, Hfull, Hsent.
  assert (He : Errors (client w2) = Errors (client w))
    by (destruct w as [[] ? ? ? ?]; reflexivity).
  rewrite He in Hsent.
  split; [intros H; cbn; now rewrite Hnone |].
  split; [intros ch H1 H2; cbn; now rewrite (Hfull ch) |].
  split; [intros ch H1 H2; cbn; destruct (Hsent ch H1 H2) as (l & ch' & ? & ? & ?);
          exists l, ch'; auto |].
  destruct w as [[] ? ? ? ?]. cbn in *. repeat split; auto.
Qed.

(** The error envelope of the example reaches the buffered error channel. *)
Lemma listen_protocol_error_witness :
  connected (client (demoConnected 0%Z [inr errorEvent])) = true
  /\ unread (demoConnected 0%Z [inr errorEvent]) = [inr errorEvent]
  /\ exists w',
       listen_turn (demoEnv []) (demoConnected 0%Z [inr errorEvent]) = Ret true w'
       /\ connected (client w') = true
       /\ goroutines w' = goroutines (demoConnected 0%Z [inr errorEvent]).
Proof.
  split; [reflexivity |]. split; [reflexivity |].
  destruct (listen_protocol_error (demoEnv []) (demoConnected 0%Z [inr errorEvent])
              (mkConn [inr errorEvent] [] false) errorEvent []
              eq_refl eq_refl eq_refl eq_refl eq_refl)
    as (w' & Hrun & _ & _ & _ & Hconn & _ & _ & _ & _ & _ & Hgo & _).
  - intros ch [= <-]. reflexivity.
  - intros ch [= <-]. reflexivity.
  - exists w'. auto.
Defined.

(** ** The registry of channels *)

Section Registry.

Context (env : Env).

Lemma variantOf_private (name : string) :
  String.prefix "private-" name = true -> variantOf name = Private.
Proof. unfold variantOf. now intros ->. Qed.

Lemma prefix_private_presence (name : string) :
  String.prefix "presence-" name = true -> String.prefix "private-" name = false.
Proof.
  destruct name as [| a1 [| a2 [| a3 name]]]; cbn [String.prefix];
    try discriminate;
    repeat match goal with
           | |- context [Ascii.ascii_dec ?a ?b] =>
               destruct (Ascii.ascii_dec a b) as [E | E];
               try discriminate E; try subst; cbn [String.prefix];
               try discriminate; try reflexivity
           end.
Qed.

Lemma variantOf_presence (name : string) :
  String.prefix "presence-" name = true -> variantOf name = Presence.
Proof.
  intros H. unfold variantOf. now rewrite (prefix_private_presence name H), H.
Qed.

Lemma variantOf_public (name : string) :
  String.prefix "private-" name = false ->
  String.prefix "presence-" name = false -> variantOf name = Public.
Proof. unfold variantOf. now intros -> ->. Qed.

Lemma sameRegistry_refl (w : World) : sameRegistry w w.
Proof. repeat split. Qed.

Lemma SendEvent_frame (event : string) (data : GoValue) (channelName : string)
    (w : World) :
  sameRegistry w (final (SendEvent env event data channelName w)).
Proof.
  unfold SendEvent. destruct (json_Marshal env data) as [err | raw];
    [apply sameRegistry_refl |].
  run. unfold resetActivityTimer, ws_Send.
  destruct w as [[] ? ? ? ?]; cbn.
  destruct activityTimerReset0 as [ch |]; cbn;
    [destruct (chansend ch tt); cbn |];
    try (repeat split; fail);
    (destruct ws0 as [conn |]; cbn; [destruct (conn_closed conn) |]);
    repeat split.
Qed.

(** With the transport open and a payload that marshals, the envelope is
    written and nil is returned. *)
Lemma SendEvent_sends (event : string) (data : GoValue) (channelName : string)
    (raw : RawMessage) (w : World) :
  json_Marshal env data = inr raw ->
  transportOpen w -> resetOpen (client w) ->
  exists w',
    SendEvent env event data channelName w = Ret None w'
    /\ sent w' = sent w ++ [JSONFrame (mkEvent event raw channelName)]
    /\ sameRegistry w w'.
Proof.
  intros Hm (conn & Hws & Hopen) Hro.
  destruct (resetActivityTimer_returns w Hro) as [slot Hreset].
  unfold SendEvent. rewrite Hm. run. rewrite Hreset.
  unfold ws_Send, sent. destruct w as [[] ? ? ? ?]; cbn in *.
  subst ws0. rewrite Hopen. eexists. split; [reflexivity |]. cbn.
  split; [reflexivity | repeat split].
Qed.

(** [Subscribe] of an entry keeps the registry and, in the heap of
    entries, changes at most the state of its own entry. *)
Lemma channel_Subscribe_frame (ch : loc) (opts : list SubscribeOption) (w : World) :
  let w' := final (channel_Subscribe env ch opts w) in
  subscribedChannels (client w') = subscribedChannels (client w)
  /\ forall l e, entries w !! l = Some e ->
       exists e', entries w' !! l = Some e'
                  /\ chn_variant e' = chn_variant e /\ chn_name e' = chn_name e.
Proof.
  unfold channel_Subscribe.
  destruct (entries w !! ch) as [e0 |] eqn:He0; cbn; [| eauto].
  destruct (chn_state e0) eqn:Hst; cbn; [| | eauto].
  all: set (w1 := set_entries (<[ch := set_state subscribing e0]> (entries w)) w).
  all: assert (H1 : forall l e, entries w !! l = Some e ->
                 exists e', entries w1 !! l = Some e'
                            /\ chn_variant e' = chn_variant e
                            /\ chn_name e' = chn_name e)
         by (intros l e Hl; unfold w1; cbn;
             destruct (decide (ch = l)) as [<- |];
             [rewrite lookup_insert_eq; rewrite He0 in Hl; injection Hl as <-; eauto
             | rewrite lookup_insert_ne by auto; eauto]).
  all: assert (Hsend : forall data,
                 let w' := final (SendEvent env pusherSubscribe data "" w1) in
                 subscribedChannels (client w') = subscribedChannels (client w)
                 /\ forall l e, entries w !! l = Some e ->
                      exists e', entries w' !! l = Some e'
                                 /\ chn_variant e' = chn_variant e
                                 /\ chn_name e' = chn_name e)
         by (intros data; destruct (SendEvent_frame pusherSubscribe data "" w1)
               as (Hs & _ & _ & Hen & _); cbn; rewrite Hs, Hen; auto).
  all: destruct (chn_variant e0); try apply Hsend.
  all: destruct (authorize env _ _ _ _) as [err | [sig data]]; cbn;
    [split; [reflexivity | exact H1] | apply Hsend].
Qed.

(** A call for a registered name is the retry on its entry. *)
Lemma Subscribe_registered (name : string) (opts : list SubscribeOption)
    (ch : loc) (w : World) :
  registered (client w) name = Some ch ->
  Subscribe env name opts w
  = (err ← channel_Subscribe env ch opts; mret (ch, err)) w.
Proof. intros H. unfold Subscribe. run. now rewrite H. Qed.

(** A call for a new name allocates the entry, registers it, and then
    subscribes it. *)
Lemma Subscribe_new (name : string) (opts : list SubscribeOption)
    (m : gmap string loc) (w : World) :
  subscribedChannels (client w) = Some m -> m !! name = None ->
  let ch := fresh (dom (entries w)) in
  Subscribe env name opts w
  = (err ← channel_Subscribe env ch opts; mret (ch, err))
      (upd_client (set_subscribedChannels (Some (<[name := ch]> m)))
         (set_entries (<[ch := mkChannel (variantOf name) name ∅ unsubscribed ∅]>
                         (entries w)) w)).
Proof.
  intros Hm Hname. unfold Subscribe, registered. run. rewrite Hm. cbn.
  rewrite Hname, Hm. reflexivity.
Qed.

(** C5: for a name that the registry does not hold, [Subscribe] builds
    and registers a new entry whose variant depends on the prefix of the
    name alone: private for [private-], presence for [presence-], public
    for every other name.  This entry is the one the call returns. *)
Theorem Subscribe_variant_by_prefix (name : string) (opts : list SubscribeOption)
    (m : gmap string loc) (w : World) :
  subscribedChannels (client w) = Some m -> m !! name = None ->
  exists ch e,
    (ch ∉ dom (entries w))
    /\ registered (client (final (Subscribe env name opts w))) name = Some ch
    /\ entries (final (Subscribe env name opts w)) !! ch = Some e
    /\ chn_name e = name
    /\ (forall r w', Subscribe env name opts w = Ret r w' -> r.1 = ch)
    /\ (String.prefix "private-" name = true -> chn_variant e = Private)
    /\ (String.prefix "presence-" name = true -> chn_variant e = Presence)
    /\ (String.prefix "private-" name = false ->
        String.prefix "presence-" name = false -> chn_variant e = Public).
Proof.
  intros Hm Hname.
  pose proof (Subscribe_new name opts m w Hm Hname) as Hnew. cbn zeta in Hnew.
  set (ch := fresh (dom (entries w))) in *.
  set (base := mkChannel (variantOf name) name ∅ unsubscribed ∅) in *.
  set (w1 := upd_client _ _) in Hnew.
  destruct (channel_Subscribe_frame ch opts w1) as [Hreg Hent].
  destruct (Hent ch base) as (e & He & Hv & Hn).
  { unfold w1; cbn. apply lookup_insert_eq. }
  assert (Hfinal : final (Subscribe env name opts w)
                   = final (channel_Subscribe env ch opts w1)).
  { rewrite Hnew. run. now destruct (channel_Subscribe env ch opts w1). }
  exists ch, e. rewrite Hfinal.
  split; [apply is_fresh |].
  split.
  { unfold registered. rewrite Hreg. unfold w1; cbn.
    destruct (client w); cbn. apply lookup_insert_eq. }
  split; [exact He |]. split; [exact Hn |].
  split.
  { intros r w'. rewrite Hnew. run.
    destruct (channel_Subscribe env ch opts w1); [| discriminate | discriminate].
    now intros [= <- _]. }
  rewrite Hv. cbn.
  split; [apply variantOf_private |].
  split; [apply variantOf_presence | apply variantOf_public].
Qed.

(** C4, as the code has it: a call of [Subscribe] leaves its entry in the
    registry under the name, and a later call with the same name builds
    nothing and returns that identical entry; it then calls [Subscribe] of
    the entry with its options, exactly as the retry of the caller on the
    handle does.  The request is therefore sent again whenever the entry
    itself sends one; an entry that is already subscribed sends none. *)
Theorem Subscribe_again_is_retry (name : string) (opts : list SubscribeOption)
    (ch : loc) (err : option error) (w w1 : World) :
  Subscribe env name opts w = Ret (ch, err) w1 ->
  registered (client w1) name = Some ch
  /\ forall (w2 : World) (opts2 : list SubscribeOption),
       registered (client w2) name = Some ch ->
       Subscribe env name opts2 w2
       = (err2 ← channel_Subscribe env ch opts2; mret (ch, err2)) w2
       /\ (forall e, entries w2 !! ch = Some e -> chn_state e = subscribed ->
             Subscribe env name opts2 w2 = Ret (ch, None) w2).
Proof.
  intros Hrun. split.
  - destruct (registered (client w) name) as [ch0 |] eqn:Hreg.
    + rewrite (Subscribe_registered name opts ch0 w Hreg) in Hrun.
      destruct (channel_Subscribe_frame ch0 opts w) as [Hs _].
      revert Hrun. run.
      destruct (channel_Subscribe env ch0 opts w) as [e0 w' | |];
        [| discriminate | discriminate].
      intros [= <- _ <-]. cbn in Hs. unfold registered in *. now rewrite Hs.
    + destruct (subscribedChannels (client w)) as [m |] eqn:Hm.
      * assert (Hname : m !! name = None)
          by (unfold registered in Hreg; now rewrite Hm in Hreg).
        pose proof (Subscribe_new name opts m w Hm Hname) as Hnew.
        cbn zeta in Hnew. rewrite Hnew in Hrun.
        set (w0 := upd_client _ _) in Hrun.
        destruct (channel_Subscribe_frame (fresh (dom (entries w))) opts w0)
          as [Hs _].
        revert Hrun. run.
        destruct (channel_Subscribe env _ opts w0) as [e0 w' | |];
          [| discriminate | discriminate].
        intros [= <- _ <-]. cbn in Hs. unfold registered. rewrite Hs.
        unfold w0; cbn. destruct (client w); cbn. apply lookup_insert_eq.
      * revert Hrun. unfold Subscribe. run. rewrite Hreg. cbn. rewrite Hm.
        discriminate.
  - intros w2 opts2 Hreg2.
    rewrite (Subscribe_registered name opts2 ch w2 Hreg2).
    split; [reflexivity |].
    intros e He Hst. run. unfold channel_Subscribe. now rewrite He, Hst.
Qed.

(** C8: for a name without an entry [Unsubscribe] returns nil and leaves
    the world as it is: the registry is unchanged and nothing is sent.  For
    a name with an entry, whatever the state of the subscription, the entry
    is removed from the registry, and with the transport open the
    unsubscribe envelope of the channel is written and nil is returned. *)
Theorem Unsubscribe_registry (name : string) (w : World) :
  (registered (client w) name = None -> Unsubscribe env name w = Ret None w)
  /\ (forall ch,
        registered (client w) name = Some ch ->
        registered (client (final (Unsubscribe env name w))) name = None)
  /\ (forall ch e raw,
        registered (client w) name = Some ch ->
        entries w !! ch = Some e ->
        json_Marshal env (VStringMap [("channel", chn_name e)]) = inr raw ->
        transportOpen w -> resetOpen (client w) ->
        exists w',
          Unsubscribe env name w = Ret None w'
          /\ registered (client w') name = None
          /\ (forall other, other <> name ->
                registered (client w') other = registered (client w) other)
          /\ sent w' = sent w ++ [JSONFrame (mkEvent pusherUnsubscribe raw "")]).
Proof.
  split; [| split].
  - intros H. unfold Unsubscribe. run. now rewrite H.
  - intros ch H. unfold Unsubscribe. run. rewrite H.
    set (w1 := upd_client _ w).
    assert (H1 : registered (client w1) name = None).
    { unfold registered, w1. destruct w as [[] ? ? ? ?]; cbn.
      destruct subscribedChannels0; cbn; [apply lookup_delete_eq | reflexivity]. }
    unfold channel_Unsubscribe.
    destruct (entries w1 !! ch) as [e |]; [| exact H1].
    destruct (SendEvent_frame pusherUnsubscribe
                (VStringMap [("channel", chn_name e)]) "" w1) as [Hs _].
    unfold registered in *. now rewrite Hs.
  - intros ch e raw Hreg He Hm Hopen Hro.
    unfold Unsubscribe. run. rewrite Hreg.
    set (w1 := upd_client _ w).
    assert (He1 : entries w1 !! ch = Some e) by exact He.
    unfold channel_Unsubscribe. rewrite He1.
    destruct (SendEvent_sends pusherUnsubscribe _ "" raw w1 Hm)
      as (w' & Hrun & Hsent & Hs & _).
    { destruct Hopen as (conn & Hws & Hc). exists conn.
      destruct w as [[] ? ? ? ?]; cbn in *. auto. }
    { intros c Hc. apply Hro. destruct w as [[] ? ? ? ?]. exact Hc. }
    exists w'. split; [exact Hrun |].
    unfold registered. rewrite Hs.
    replace (sent w1) with (sent w) in Hsent
      by (destruct w as [[] ? ? ? ?]; reflexivity).
    split; [| split; [| exact Hsent]].
    + unfold w1. destruct w as [[] ? ? ? ?]; cbn in *.
      destruct subscribedChannels0; cbn; [apply lookup_delete_eq | reflexivity].
    + intros other Hne. unfold w1. destruct w as [[] ? ? ? ?]; cbn.
      destruct subscribedChannels0; cbn; [| reflexivity].
      apply lookup_delete_ne. auto.
Qed.

End Registry.

Ltac by_computation := vm_compute; reflexivity.

Lemma Subscribe_variant_by_prefix_witness :
  subscribedChannels (client (demoConnected 0%Z [])) = Some ∅
  /\ exists ch e,
       entries (final (Subscribe (demoEnv []) "presence-room" []
                                 (demoConnected 0%Z []))) !! ch = Some e
       /\ chn_variant e = Presence.
Proof.
  split; [reflexivity |].
  destruct (Subscribe_variant_by_prefix (demoEnv []) "presence-room" [] ∅
              (demoConnected 0%Z []) eq_refl eq_refl)
    as (ch & e & _ & _ & He & _ & _ & _ & Hpresence & _).
  exists ch, e. split; [exact He | apply Hpresence; reflexivity].
Defined.

Lemma Subscribe_again_is_retry_witness :
  Subscribe (demoEnv []) "my-channel" [] (demoConnected 0%Z [])
    = Ret (0, None) demoSubscribedOnce
  /\ registered (client demoSubscribedOnce) "my-channel" = Some 0
  /\ Subscribe (demoEnv []) "my-channel" [] demoSubscribedOnce
     = (err ← channel_Subscribe (demoEnv []) 0 []; mret (0, err))
         demoSubscribedOnce.
Proof.
  assert (Hrun : Subscribe (demoEnv []) "my-channel" [] (demoConnected 0%Z [])
                 = Ret (0, None) demoSubscribedOnce) by by_computation.
  split; [exact Hrun |].
  destruct (Subscribe_again_is_retry (demoEnv []) "my-channel" [] 0 None
              (demoConnected 0%Z []) demoSubscribedOnce Hrun)
    as [Hreg Hretry].
  split; [exact Hreg |].
  exact (proj1 (Hretry demoSubscribedOnce [] Hreg)).
Defined.

(** C4 fails as stated: with no envelope read between the two calls, the
    second call for the same name writes the subscribe request again. *)
Lemma Subscribe_twice_sends_twice :
  ~ (forall (env : Env) (name : string) (opts1 opts2 : list SubscribeOption)
            (w w1 w2 : World) (r1 r2 : loc * option error),
        Subscribe env name opts1 w = Ret r1 w1 ->
        Subscribe env name opts2 w1 = Ret r2 w2 ->
        r2.1 = r1.1 /\ sent w2 = sent w1).
Proof.
  intros H.
  destruct (H (demoEnv []) "my-channel" [] [] (demoConnected 0%Z [])
              demoSubscribedOnce demoSubscribedTwice (0, None) (0, None))
    as [_ Hsent]; [by_computation | by_computation |].
  vm_compute in Hsent. discriminate Hsent.
Qed.

Lemma Unsubscribe_registry_witness :
  registered (client demoSubscribedOnce) "my-channel" = Some 0
  /\ exists w' raw,
       Unsubscribe (demoEnv []) "my-channel" demoSubscribedOnce = Ret None w'
       /\ registered (client w') "my-channel" = None
       /\ sent w' = sent demoSubscribedOnce
                    ++ [JSONFrame (mkEvent pusherUnsubscribe raw "")].
Proof.
  split; [by_computation |].
  destruct (Unsubscribe_registry (demoEnv []) "my-channel" demoSubscribedOnce)
    as (_ & _ & Hsend).
  destruct (Hsend 0 (mkChannel Public "my-channel" ∅ subscribing ∅)
              (bytes ("{" +:+ jsonPair ("channel", "my-channel") +:+ "}")))
    as (w' & Hrun & Hreg & _ & Hsent); try by_computation.
  - exists (mkConn [] (sent demoSubscribedOnce) false). split; by_computation.
  - intros ch Hch. vm_compute in Hch. injection Hch as <-. reflexivity.
  - exists w', (bytes ("{" +:+ jsonPair ("channel", "my-channel") +:+ "}")). auto.
Defined.

(** * Further properties of client.go *)

(** ** Close listeners *)

Lemma broadcast_app (l1 l2 : list (option loc)) :
  forall w : World,
    broadcast (l1 ++ l2) w
    = match broadcast l1 w with
      | Ret _ w' => broadcast l2 w'
      | Panics msg w' => Panics msg w'
      | Blocks w' => Blocks w'
      end.
Proof.
  induction l1 as [| r l1 IH]; intros w; [reflexivity |].
  rewrite <- app_comm_cons, !broadcast_cons. run.
  destruct (chan_send r (closeSignal (client w)) w) as [[] w1 | |];
    try reflexivity.
  destruct (chan_close r w1) as [[] w2 | |]; try reflexivity.
  apply IH.
Qed.

(** A listener registered with [NotifyClose] is put behind the earlier
    ones, the same handle is returned, and the next [Disconnect] sends it
    the close signal once and closes it. *)
Theorem NotifyClose_then_Disconnect (w : World) (l : loc)
    (ch : gochan (option error)) :
  errchans w !! l = Some ch -> can_send ch = true ->
  Some l ∉ closes (client w) ->
  NoDup (closes (client w)) -> Forall (listening w) (closes (client w)) ->
  exists w1 r w',
    NotifyClose (Some l) w = Ret (Some l) w1
    /\ closes (client w1) = closes (client w) ++ [Some l]
    /\ Disconnect w1 = Ret r w'
    /\ exists ch',
         errchans w' !! l = Some ch'
         /\ received_one ch (closeSignal (client w)) ch'
         /\ ch_closed ch' = true.
Proof.
  intros Hl Hs Hnotin Hnd Hall.
  set (w1 := upd_client (fun c => set_closes (closes c ++ [Some l]) c) w).
  assert (Hcl : closes (client w1) = closes (client w) ++ [Some l])
    by (destruct w as [[] ? ? ? ?]; reflexivity).
  destruct (Disconnect_spec w1) as (w' & Hrun & _ & _ & _ & _ & _ & _ & _ & Hin).
  { rewrite Hcl. apply NoDup_app. split; [exact Hnd |].
    split; [| apply NoDup_singleton].
    intros x Hx Hx'. apply list_elem_of_singleton in Hx'. now subst x. }
  { rewrite Hcl. apply Forall_app. split.
    - apply Forall_forall. intros r Hr. rewrite Forall_forall in Hall.
      destruct (Hall r Hr) as (l0 & ch0 & -> & H0 & Hc0). now exists l0, ch0.
    - apply Forall_cons_2; [| apply Forall_nil_2]. now exists l, ch. }
  exists w1, (closeResult (client w1)), w'.
  split; [reflexivity |]. split; [exact Hcl |]. split; [exact Hrun |].
  assert (Hmem : Some l ∈ closes (client w1))
    by (rewrite Hcl; apply elem_of_app; right; apply list_elem_of_here).
  destruct (Hin l Hmem) as (ch0 & ch' & H0 & H1 & Hone & Hclosed).
  change (errchans w1) with (errchans w) in H0. rewrite Hl in H0.
  injection H0 as <-. exists ch'. split; [exact H1 |]. split; [| exact Hclosed].
  replace (closeSignal (client w)) with (closeSignal (client w1));
    [exact Hone | now destruct w as [[] ? ? ? ?]].
Qed.

(** A channel registered twice as close listener makes [Disconnect] panic:
    the channel is closed after its first signal, and the second send is a
    send on a closed channel.  The session is already marked not
    connected, the list of listeners is not cleared and the transport is
    not closed. *)
Theorem Disconnect_duplicate_listener (w : World) (pre rest : list (option loc))
    (l : loc) :
  closes (client w) = pre ++ Some l :: rest ->
  Some l ∈ pre -> NoDup pre -> Forall (listening w) pre ->
  exists w',
    Disconnect w = Panics "send on closed channel" w'
    /\ connected (client w') = false
    /\ closes (client w') = closes (client w)
    /\ ws (client w') = ws (client w).
Proof.
  intros Hcl Hin Hnd Hall.
  set (w0 := upd_client (set_connected false) w).
  destruct (broadcast_spec pre w0 Hnd) as (w1 & Hrun & Hc & _ & _ & _ & _ & Hpre).
  { apply Forall_forall. intros r Hr. rewrite Forall_forall in Hall.
    destruct (Hall r Hr) as (l0 & ch0 & -> & H0 & Hc0). now exists l0, ch0. }
  destruct (Hpre l Hin) as (ch & ch' & _ & Hl' & _ & Hclosed).
  exists w1. split.
  - unfold Disconnect. run.
    change (broadcast _ _) with (broadcast (closes (client w)) w0).
    rewrite Hcl, broadcast_app, Hrun, broadcast_cons. run.
    unfold chan_send, deref. cbn. rewrite Hl'. unfold chansend.
    now rewrite Hclosed.
  - rewrite Hc. destruct w as [[] ? ? ? ?]. repeat split.
Qed.

(** [Disconnect] blocks at the first listener on which a send cannot
    proceed: a nil channel, or an unbuffered or full channel that nobody
    reads.  The session is already marked not connected, the listeners
    before it have been notified and closed, and the transport is left
    open. *)
Theorem Disconnect_blocks_on_unready_listener (w : World)
    (pre rest : list (option loc)) (r : option loc) :
  closes (client w) = pre ++ r :: rest ->
  r ∉ pre -> unready w r -> NoDup pre -> Forall (listening w) pre ->
  exists w',
    Disconnect w = Blocks w'
    /\ connected (client w') = false
    /\ ws (client w') = ws (client w)
    /\ forall l, Some l ∈ pre ->
         exists ch ch', errchans w !! l = Some ch
                        /\ errchans w' !! l = Some ch'
                        /\ received_one ch (closeSignal (client w)) ch'
                        /\ ch_closed ch' = true.
Proof.
  intros Hcl Hnotin Hun Hnd Hall.
  set (w0 := upd_client (set_connected false) w).
  destruct (broadcast_spec pre w0 Hnd)
    as (w1 & Hrun & Hc & _ & _ & _ & Hother & Hpre).
  { apply Forall_forall. intros x Hx. rewrite Forall_forall in Hall.
    destruct (Hall x Hx) as (l0 & ch0 & -> & H0 & Hc0). now exists l0, ch0. }
  assert (Hderef : deref r w1 = deref r w).
  { destruct r as [l |]; [| reflexivity]. cbn. now rewrite Hother. }
  exists w1. split; [| split; [| split]].
  - unfold Disconnect. run.
    change (broadcast _ _) with (broadcast (closes (client w)) w0).
    rewrite Hcl, broadcast_app, Hrun, broadcast_cons. run.
    unfold chan_send. rewrite Hderef. unfold unready in Hun.
    destruct (deref r w) as [ch |]; [| reflexivity].
    destruct Hun as [Hopen Hfull].
    now rewrite (chansend_cannot_send ch _ Hopen Hfull).
  - rewrite Hc. now destruct w as [[] ? ? ? ?].
  - rewrite Hc. now destruct w as [[] ? ? ? ?].
  - intros l Hl. destruct (Hpre l Hl) as (ch & ch' & H0 & H1 & Hone & Hclosed).
    exists ch, ch'. split; [exact H0 |]. split; [exact H1 |].
    split; [| exact Hclosed].
    replace (closeSignal (client w)) with (closeSignal (client w0));
      [exact Hone | now destruct w as [[] ? ? ? ?]].
Qed.

(** Once the session is marked not connected, as [Disconnect] leaves it,
    the next turn of [listen] and of [heartbeat] ends the loop: nothing is
    read, nothing is written and the world stays as it is. *)
Theorem loops_end_when_disconnected (env : Env) (w : World) :
  connected (client w) = false ->
  listen_turn env w = Ret false w
  /\ (forall fuel, listen env (S fuel) w = Ret (Some tt) w)
  /\ (forall pick, heartbeat_turn pick w = Ret HbExit w)
  /\ (forall pick picks, heartbeat (pick :: picks) w = Ret (Some tt) w).
Proof.
  intros H.
  assert (Hl : listen_turn env w = Ret false w)
    by (unfold listen_turn; run; now rewrite H).
  assert (Hh : forall pick, heartbeat_turn pick w = Ret HbExit w)
    by (intros pick; unfold heartbeat_turn; run; now rewrite H).
  repeat split; auto.
  - intros fuel. cbn [listen]. run. now rewrite Hl.
  - intros pick picks. cbn [heartbeat]. run. now rewrite Hh.
Qed.

Lemma NotifyClose_then_Disconnect_witness :
  exists w1 r w' ch',
    NotifyClose (Some 0) (demoConnected 0%Z []) = Ret (Some 0) w1
    /\ Disconnect w1 = Ret r w'
    /\ errchans w' !! 0 = Some ch'
    /\ ch_closed ch' = true.
Proof.
  destruct (demo_listeners (demoConnected 0%Z []) eq_refl eq_refl eq_refl)
    as [Hnd Hall].
  destruct (NotifyClose_then_Disconnect (demoConnected 0%Z []) 0 (make_chan 1)
              eq_refl eq_refl) as (w1 & r & w' & H1 & _ & H2 & ch' & H3 & _ & H4);
    [| exact Hnd | exact Hall |].
  - intros H. apply elem_of_cons in H as [H | H]; [discriminate |].
    apply list_elem_of_singleton in H. discriminate.
  - exists w1, r, w', ch'. auto.
Defined.

Lemma Disconnect_duplicate_listener_witness :
  exists w',
    Disconnect demoTwice = Panics "send on closed channel" w'
    /\ connected (client w') = false
    /\ closes (client w') = [Some 1; Some 1].
Proof.
  destruct (Disconnect_duplicate_listener demoTwice [Some 1] [] 1 eq_refl)
    as (w' & Hrun & Hconn & Hcl & _).
  - apply list_elem_of_here.
  - apply NoDup_singleton.
  - apply Forall_cons_2; [| apply Forall_nil_2]. now exists 1, (make_chan 1).
  - exists w'. auto.
Defined.

Lemma Disconnect_blocks_on_unready_listener_witness :
  exists w',
    Disconnect demoUnbuffered = Blocks w' /\ connected (client w') = false.
Proof.
  destruct (Disconnect_blocks_on_unready_listener demoUnbuffered [Some 1] []
              (Some 3) eq_refl) as (w' & Hrun & Hconn & _).
  - intros H. apply list_elem_of_singleton in H. discriminate.
  - split; reflexivity.
  - apply NoDup_singleton.
  - apply Forall_cons_2; [| apply Forall_nil_2]. now exists 1, (make_chan 1).
  - exists w'. auto.
Defined.

Lemma loops_end_when_disconnected_witness :
  connected (client demoDisconnected) = false
  /\ listen_turn (demoEnv []) demoDisconnected = Ret false demoDisconnected
  /\ heartbeat_turn true demoDisconnected = Ret HbExit demoDisconnected.
Proof.
  split; [reflexivity |].
  destruct (loops_end_when_disconnected (demoEnv []) demoDisconnected eq_refl)
    as (Hl & _ & Hh & _).
  split; [exact Hl | apply Hh].
Defined.

(** ** The event router *)

Lemma boundTo_insert (c : Client) (m : gmap string (gset loc)) (event other : string)
    (s : gset loc) :
  boundTo (set_boundEvents (Some (<[event := s]> m)) c) other
  = if decide (event = other) then s else default ∅ (m !! other).
Proof.
  unfold boundTo. destruct c; cbn.
  destruct (decide (event = other)) as [-> |].
  - now rewrite lookup_insert_eq.
  - now rewrite lookup_insert_ne.
Qed.

(** On a session with its table of bindings, [Bind] makes a channel that
    did not exist, adds it to the listeners of the event and leaves the
    listeners of every other event alone.  When every bound channel was
    made by [Bind], the new one is bound to no event before the call, and
    this stays so for the next call. *)
Theorem Bind_adds_fresh_listener (event : string) (m : gmap string (gset loc))
    (w : World) :
  boundEvents (client w) = Some m ->
  exists boundChan w',
    Bind event w = Ret boundChan w'
    /\ (boundChan ∉ evchans w)
    /\ evchans w' = {[boundChan]} ∪ evchans w
    /\ boundTo (client w') event = {[boundChan]} ∪ boundTo (client w) event
    /\ (forall other, other <> event ->
          boundTo (client w') other = boundTo (client w) other)
    /\ (boundAllocated w ->
        (forall other, boundChan ∉ boundTo (client w) other)
        /\ boundAllocated w').
Proof.
  intros Hm.
  set (b := fresh (evchans w)).
  set (w' := upd_client
               (set_boundEvents
                  (Some (<[event := {[b]} ∪ default ∅ (m !! event)]> m)))
               (set_evchans ({[b]} ∪ evchans w) w)).
  assert (Hfresh : b ∉ evchans w) by apply is_fresh.
  assert (Hto : forall other, boundTo (client w) other = default ∅ (m !! other))
    by (intros other; unfold boundTo; now rewrite Hm).
  assert (Hnew : forall other,
             boundTo (client w') other
             = if decide (event = other) then {[b]} ∪ boundTo (client w) event
               else boundTo (client w) other).
  { intros other. rewrite !Hto. unfold w'. cbn [client upd_client set_evchans].
    apply (boundTo_insert (client w)). }
  exists b, w'. split; [unfold Bind; cbn; now rewrite Hm |].
  split; [exact Hfresh |]. split; [reflexivity |].
  split; [| split].
  - now rewrite Hnew, decide_True by reflexivity.
  - intros other Hne. now rewrite Hnew, decide_False by auto.
  - intros Hinv. split.
    + intros other Hb. apply Hfresh. now apply (Hinv other).
    + intros other c. rewrite Hnew. change (evchans w') with ({[b]} ∪ evchans w).
      destruct (decide (event = other)) as [<- |]; intros Hc.
      * apply elem_of_union in Hc as [Hc | Hc].
        -- apply elem_of_union_l. exact Hc.
        -- apply elem_of_union_r. now apply (Hinv event).
      * apply elem_of_union_r. now apply (Hinv other).
Qed.

(** [Unbind] without channels removes every listener of the event; with
    channels it removes those channels and keeps the others.  The
    listeners of the other events are left alone, and the call never
    fails, also on a name that was never bound. *)
Theorem Unbind_removes_listeners (event : string) (chans : list loc) (w : World) :
  exists w',
    Unbind event chans w = Ret tt w'
    /\ (chans = [] -> boundTo (client w') event = ∅)
    /\ (chans <> [] ->
        boundTo (client w') event = boundTo (client w) event ∖ list_to_set chans)
    /\ (forall other, other <> event ->
          boundTo (client w') other = boundTo (client w) other)
    /\ evchans w' = evchans w
    /\ subscribedChannels (client w') = subscribedChannels (client w).
Proof.
  eexists. split; [reflexivity |].
  destruct w as [c ? ? ? ?]. cbn.
  unfold boundTo. destruct c as [? ? ? ? ? ? ? ? ? ? ? ? ? ? ? be ? ? ?]; cbn.
  split; [| split; [| split; [| split]]];
    try (destruct chans; reflexivity).
  - intros ->. cbn. destruct be as [m |]; cbn; [| reflexivity].
    now rewrite lookup_delete_eq.
  - intros Hne. destruct chans as [| x chans]; [contradiction |]. cbn.
    destruct be as [m |]; cbn.
    + rewrite lookup_alter_eq. destruct (m !! event); cbn; [reflexivity |].
      set_solver.
    + set_solver.
  - intros other Hne. destruct chans as [| x chans]; cbn;
      (destruct be as [m |]; cbn; [| reflexivity]).
    + now rewrite lookup_delete_ne by auto.
    + now rewrite lookup_alter_ne by auto.
Qed.

(** Round trip: [Bind] and then [Unbind] of the channel it returned leave
    the listeners of every event as they were before. *)
Theorem Bind_then_Unbind (event : string) (m : gmap string (gset loc)) (w : World) :
  boundEvents (client w) = Some m -> boundAllocated w ->
  exists boundChan w1 w2,
    Bind event w = Ret boundChan w1
    /\ Unbind event [boundChan] w1 = Ret tt w2
    /\ forall name, boundTo (client w2) name = boundTo (client w) name.
Proof.
  intros Hm Hinv. unfold Bind. cbn. rewrite Hm.
  set (b := fresh (evchans w)).
  assert (Hfresh : b ∉ evchans w) by apply is_fresh.
  eexists b, _, _. split; [reflexivity |]. split; [reflexivity |].
  intros name. cbn.
  assert (Hb : b ∉ default ∅ (m !! event)).
  { intros H. apply Hfresh. apply (Hinv event). unfold boundTo. now rewrite Hm. }
  destruct w as [c ? ? ? ?]. cbn in *.
  unfold boundTo. destruct c; cbn in *. subst boundEvents0. cbn.
  destruct (decide (event = name)) as [<- |].
  - rewrite lookup_alter_eq, lookup_insert_eq. cbn.
    destruct (m !! event) as [s |]; cbn in *; set_solver.
  - now rewrite lookup_alter_ne, lookup_insert_ne by auto.
Qed.

(** ** Turns of the read loop *)

(** A turn that receives an envelope, with the reset channel open: the
    envelope is taken, the reset is requested, and the switch runs. *)
Lemma listen_turn_switch (env : Env) (w : World) (conn : Conn) (event : Event)
    (rest : list (error + Event)) :
  connected (client w) = true ->
  ws (client w) = Some conn -> conn_closed conn = false ->
  conn_in conn = inr event :: rest ->
  resetOpen (client w) ->
  exists slot,
    listen_turn env w
    = (_ ← listen_switch env event; mret true)
        (upd_client (set_activityTimerReset slot)
           (upd_client (set_ws (Some (mkConn rest (conn_out conn) false))) w)).
Proof.
  intros Hconn Hws Hopen Hin Hro.
  rewrite (listen_turn_event env w conn event rest Hconn Hws Hopen Hin).
  set (w1 := upd_client (set_ws (Some (mkConn rest (conn_out conn) false))) w).
  destruct (resetActivityTimer_returns w1) as [slot Hreset].
  { intros ch Hch. apply Hro. destruct w as [[] ? ? ? ?]. exact Hch. }
  exists slot. run. now rewrite Hreset.
Qed.

(** A ping of the server is answered with the pong payload, written to the
    transport as a text message; a pong of the server is only taken.  In
    both cases the turn goes on and starts no goroutine. *)
Theorem listen_answers_ping (env : Env) (w : World) (conn : Conn) (event : Event)
    (rest : list (error + Event)) :
  connected (client w) = true ->
  ws (client w) = Some conn -> conn_closed conn = false ->
  conn_in conn = inr event :: rest ->
  resetOpen (client w) ->
  ev_Event event = pusherPing \/ ev_Event event = pusherPong ->
  exists w',
    listen_turn env w = Ret true w'
    /\ unread w' = rest
    /\ goroutines w' = goroutines w
    /\ (ev_Event event = pusherPing ->
        sent w' = sent w ++ [TextFrame pongPayload])
    /\ (ev_Event event = pusherPong -> sent w' = sent w).
Proof.
  intros Hconn Hws Hopen Hin Hro Hname.
  destruct (listen_turn_switch env w conn event rest Hconn Hws Hopen Hin Hro)
    as [slot ->].
  unfold listen_switch, ws_Send, unread, sent. run.
  destruct w as [[] ? ? ? ?]; cbn in *. subst ws0.
  destruct Hname as [-> | ->]; cbn; eexists; (split; [reflexivity |]); cbn;
    repeat split; auto; discriminate.
Qed.

(** A turn that receives an envelope whose name is not ping, pong or error
    and whose channel name is not registered: the deliveries to the bound
    channels are all it starts. *)
Lemma listen_turn_unregistered (env : Env) (w : World) (conn : Conn)
    (event : Event) (rest : list (error + Event)) :
  connected (client w) = true ->
  ws (client w) = Some conn -> conn_closed conn = false ->
  conn_in conn = inr event :: rest ->
  resetOpen (client w) ->
  ev_Event event <> pusherPing -> ev_Event event <> pusherPong ->
  ev_Event event <> pusherError ->
  registered (client w) (ev_Channel event) = None ->
  exists w',
    listen_turn env w = Ret true w'
    /\ started w w'
       = map (fun boundChan => GoDeliver boundChan event)
             (elements (boundTo (client w) (ev_Event event)))
    /\ sent w' = sent w /\ unread w' = rest
    /\ entries w' = entries w /\ errchans w' = errchans w
    /\ boundEvents (client w') = boundEvents (client w).
Proof.
  intros Hconn Hws Hopen Hin Hro H1 H2 H3 Hreg.
  destruct (listen_turn_switch env w conn event rest Hconn Hws Hopen Hin Hro)
    as [slot ->].
  apply String.eqb_neq in H1, H2, H3.
  unfold listen_switch. rewrite H1, H2, H3. run.
  unfold started, unread, sent.
  destruct w as [[] ? ? ? ?]; cbn in *. subst ws0.
  unfold registered in *. cbn in *. rewrite Hreg.
  eexists. split; [reflexivity |]. cbn.
  rewrite drop_app_length. repeat split.
Qed.

(** Fan-out: an envelope whose name is not ping, pong or error starts
    exactly one delivery for every channel bound to its name, and a
    delivery for no other channel; the envelope delivered is the one
    received. *)
Theorem listen_delivers_once_per_listener (env : Env) (w : World) (conn : Conn)
    (event : Event) (rest : list (error + Event)) :
  connected (client w) = true ->
  ws (client w) = Some conn -> conn_closed conn = false ->
  conn_in conn = inr event :: rest ->
  resetOpen (client w) ->
  ev_Event event <> pusherPing -> ev_Event event <> pusherPong ->
  ev_Event event <> pusherError ->
  registered (client w) (ev_Channel event) = None ->
  exists w',
    listen_turn env w = Ret true w'
    /\ NoDup (started w w')
    /\ List.length (started w w') = size (boundTo (client w) (ev_Event event))
    /\ forall g, g ∈ started w w' <->
                 exists boundChan,
                   g = GoDeliver boundChan event
                   /\ boundChan ∈ boundTo (client w) (ev_Event event).
Proof.
  intros Hconn Hws Hopen Hin Hro H1 H2 H3 Hreg.
  destruct (listen_turn_unregistered env w conn event rest
              Hconn Hws Hopen Hin Hro H1 H2 H3 Hreg) as (w' & Hrun & Hst & _).
  exists w'. split; [exact Hrun |]. rewrite Hst.
  split; [| split].
  - apply NoDup_fmap_2; [| apply NoDup_elements].
    intros b1 b2 [= ->]. reflexivity.
  - now rewrite length_map.
  - intros g. rewrite list_elem_of_fmap. split.
    + intros (b & -> & Hb). exists b. split; [reflexivity |].
      now apply elem_of_elements.
    + intros (b & -> & Hb). exists b. split; [reflexivity |].
      now apply elem_of_elements.
Qed.

(** After [Unbind] of an event name without channels, an envelope of that
    name is delivered to no listener of the session: the goroutines the
    turn starts are exactly those that [handleEvent] of the entry
    registered under the channel of the envelope starts, and none when
    that channel is not registered. *)
Theorem Unbind_stops_delivery (env : Env) (w : World) (conn : Conn)
    (event : Event) (rest : list (error + Event)) :
  connected (client w) = true ->
  ws (client w) = Some conn -> conn_closed conn = false ->
  conn_in conn = inr event :: rest ->
  resetOpen (client w) ->
  ev_Event event <> pusherPing -> ev_Event event <> pusherPong ->
  ev_Event event <> pusherError ->
  exists w1,
    Unbind (ev_Event event) [] w = Ret tt w1
    /\ boundTo (client w1) (ev_Event event) = ∅
    /\ started w1 (final (listen_turn env w1))
       = match registered (client w) (ev_Channel event) with
         | Some subChan =>
             match entries w !! subChan with
             | Some e => (handleEvent env e (ev_Event event) (ev_Data event)).2
             | None => []
             end
         | None => []
         end.
Proof.
  intros Hconn Hws Hopen Hin Hro H1 H2 H3.
  set (w1 := upd_client
               (fun c => set_boundEvents (delete (ev_Event event) <$> boundEvents c) c)
               w).
  assert (Hempty : boundTo (client w1) (ev_Event event) = ∅).
  { unfold boundTo, w1. destruct w as [[] ? ? ? ?]; cbn.
    destruct boundEvents0; cbn; [| reflexivity]. now rewrite lookup_delete_eq. }
  assert (Hreg : registered (client w1) (ev_Channel event)
                 = registered (client w) (ev_Channel event))
    by (unfold w1; now destruct w as [[] ? ? ? ?]).
  exists w1. split; [reflexivity |]. split; [exact Hempty |].
  destruct (listen_turn_switch env w1 conn event rest) as [slot ->];
    try (unfold w1; destruct w as [[] ? ? ? ?]; assumption).
  set (w2 := upd_client (set_activityTimerReset slot) _).
  assert (Hempty2 : boundTo (client w2) (ev_Event event) = ∅)
    by (rewrite <- Hempty; unfold w2, w1; now destruct w as [[] ? ? ? ?]).
  assert (Hreg2 : registered (client w2) (ev_Channel event)
                  = registered (client w) (ev_Channel event))
    by (rewrite <- Hreg; unfold w2, w1; now destruct w as [[] ? ? ? ?]).
  assert (Hg2 : goroutines w2 = goroutines w1) by reflexivity.
  assert (He2 : entries w2 = entries w) by reflexivity.
  clearbody w2.
  apply String.eqb_neq in H1, H2, H3.
  unfold listen_switch. rewrite H1, H2, H3. run.
  rewrite Hempty2, Hreg2, elements_empty. cbn [map].
  unfold started. rewrite <- Hg2.
  destruct (registered (client w) (ev_Channel event)) as [subChan |]; cbn.
  - unfold channel_handleEvent. cbn. rewrite He2.
    destruct (entries w !! subChan) as [e |]; cbn.
    + destruct (handleEvent env e (ev_Event event) (ev_Data event)) as [e' gs]. cbn.
      now rewrite app_nil_r, drop_app_length.
    + now rewrite app_nil_r, drop_all.
  - now rewrite app_nil_r, drop_all.
Qed.


Lemma demo_resetOpen (script : list (error + Event)) :
  resetOpen (client (demoConnected 0%Z script)).
Proof. intros ch [= <-]. reflexivity. Defined.

Lemma Bind_adds_fresh_listener_witness :
  exists boundChan w',
    Bind "greeting" (demoConnected 0%Z []) = Ret boundChan w'
    /\ boundTo (client w') "greeting"
       = {[boundChan]} ∪ boundTo (client (demoConnected 0%Z [])) "greeting".
Proof.
  destruct (Bind_adds_fresh_listener "greeting" ∅ (demoConnected 0%Z []) eq_refl)
    as (b & w' & Hrun & _ & _ & Hto & _).
  exists b, w'. auto.
Defined.

Lemma Bind_then_Unbind_witness :
  exists boundChan w1 w2,
    Bind "greeting" (demoConnected 0%Z []) = Ret boundChan w1
    /\ Unbind "greeting" [boundChan] w1 = Ret tt w2
    /\ boundTo (client w2) "greeting" = boundTo (client (demoConnected 0%Z [])) "greeting".
Proof.
  destruct (Bind_then_Unbind "greeting" ∅ (demoConnected 0%Z []) eq_refl)
    as (b & w1 & w2 & H1 & H2 & H3).
  - intros event boundChan H. unfold boundTo in H.
    change (boundEvents (client (demoConnected 0%Z [])))
      with (Some (∅ : gmap string (gset loc))) in H.
    cbn in H. rewrite lookup_empty in H. now apply not_elem_of_empty in H.
  - exists b, w1, w2. auto.
Defined.

Lemma listen_answers_ping_witness :
  exists w',
    listen_turn (demoEnv []) (demoConnected 0%Z [inr pingEvent]) = Ret true w'
    /\ sent w' = [TextFrame pongPayload].
Proof.
  destruct (listen_answers_ping (demoEnv []) (demoConnected 0%Z [inr pingEvent])
              (mkConn [inr pingEvent] [] false) pingEvent []
              eq_refl eq_refl eq_refl eq_refl (demo_resetOpen _) (or_introl eq_refl))
    as (w' & Hrun & _ & _ & Hping & _).
  exists w'. split; [exact Hrun | exact (Hping eq_refl)].
Defined.

(** Two listeners bound to the name of the envelope: two deliveries. *)
Lemma listen_delivers_once_per_listener_witness :
  exists w',
    listen_turn (demoEnv []) (demoBoundTwice greetingEvent) = Ret true w'
    /\ List.length (started (demoBoundTwice greetingEvent) w') = 2.
Proof.
  destruct (listen_delivers_once_per_listener (demoEnv [])
              (demoBoundTwice greetingEvent)
              (mkConn [inr greetingEvent] [] false) greetingEvent []
              eq_refl eq_refl eq_refl eq_refl)
    as (w' & Hrun & _ & Hlen & _); try discriminate; try reflexivity.
  - intros ch [= <-]. reflexivity.
  - exists w'. split; [exact Hrun |]. rewrite Hlen. reflexivity.
Defined.

Lemma Unbind_stops_delivery_witness :
  exists w1,
    Unbind "greeting" [] (demoBoundTwice greetingEvent) = Ret tt w1
    /\ boundTo (client w1) "greeting" = ∅
    /\ started w1 (final (listen_turn (demoEnv []) w1)) = [].
Proof.
  destruct (Unbind_stops_delivery (demoEnv []) (demoBoundTwice greetingEvent)
              (mkConn [inr greetingEvent] [] false) greetingEvent []
              eq_refl eq_refl eq_refl eq_refl)
    as (w1 & H1 & H2 & H3); try discriminate.
  - intros ch [= <-]. reflexivity.
  - exists w1. split; [exact H1 |]. split; [exact H2 | exact H3].
Defined.


Lemma listen_read_failure_witness :
  exists w',
    listen_turn (demoEnv []) (demoConnected 0%Z [inl (NewError "EOF")])
      = Ret false w'
    /\ connected (client w') = false
    /\ disconnectErr (client w') = Some (NewError "EOF").
Proof.
  destruct (demo_listeners (demoConnected 0%Z [inl (NewError "EOF")])
              eq_refl eq_refl eq_refl) as [Hnd Hall].
  destruct (listen_read_failure (demoEnv []) (demoConnected 0%Z [inl (NewError "EOF")])
              (mkConn [inl (NewError "EOF")] [] false) (NewError "EOF") []
              eq_refl eq_refl eq_refl eq_refl)
    as (w' & Hrun & Hconn & Herr & _); [| | exact Hnd | exact Hall |].
  - intros ch [= <-]. reflexivity.
  - intros H. apply elem_of_cons in H as [H | H]; [discriminate |].
    apply list_elem_of_singleton in H. discriminate.
  - exists w'. auto.
Defined.

(** ** The heartbeat *)

(** When the timer has fired and no reset is requested, a turn of
    [heartbeat] takes the tick and writes the ping payload to the
    transport.  The timer is not started again: until a reset is
    requested the loop waits, and no second ping is sent. *)
Theorem heartbeat_pings_once (pick : bool) (w : World) (conn : Conn) (t : Timer) :
  connected (client w) = true ->
  activityTimer (client w) = Some t -> tm_armed t = false -> tm_C t = true ->
  reset_pending (client w) = false ->
  ws (client w) = Some conn -> conn_closed conn = false ->
  exists w',
    heartbeat_turn pick w = Ret HbPing w'
    /\ sent w' = sent w ++ [TextFrame pingPayload]
    /\ activityTimer (client w') = Some (mkTimer (tm_d t) false false)
    /\ forall pick', heartbeat_turn pick' w' = Blocks w'.
Proof.
  intros Hconn Ht Harmed HC Hpend Hws Hopen.
  set (w' := upd_client
               (set_ws (Some (mkConn (conn_in conn)
                                     (conn_out conn ++ [TextFrame pingPayload]) false)))
               (upd_client (set_activityTimer (Some (mkTimer (tm_d t) false false))) w)).
  exists w'. split; [| split; [| split]].
  - subst w'. unfold heartbeat_turn. run. rewrite Hconn. cbn [negb].
    rewrite Ht, Hpend, HC. cbv zeta. run. unfold ws_Send.
    destruct w as [[] ? ? ? ?]; cbn in *. subst.
    now rewrite Hopen, Harmed.
  - unfold sent, w'. rewrite Hws. now destruct w as [[] ? ? ? ?].
  - unfold w'. now destruct w as [[] ? ? ? ?].
  - intros pick'.
    assert (Hc' : connected (client w') = true)
      by (rewrite <- Hconn; unfold w'; now destruct w as [[] ? ? ? ?]).
    assert (Ht' : activityTimer (client w') = Some (mkTimer (tm_d t) false false))
      by (unfold w'; now destruct w as [[] ? ? ? ?]).
    assert (Hp' : reset_pending (client w') = false)
      by (rewrite <- Hpend; unfold w'; now destruct w as [[] ? ? ? ?]).
    clearbody w'. unfold heartbeat_turn. run. rewrite Hc'. cbn [negb].
    rewrite Ht', Hp'. reflexivity.
Qed.

(** A turn of [heartbeat] that takes a reset request leaves the timer
    running with the effective timeout and with no tick waiting: a tick of
    the earlier period is drained, so the next ping comes a full period
    after the restart. *)
Theorem heartbeat_restart_drains_tick (pick : bool) (w : World) (t : Timer) :
  connected (client w) = true ->
  activityTimer (client w) = Some t -> timerOk t ->
  reset_pending (client w) = true ->
  pick = false \/ tm_C t = false ->
  exists w',
    heartbeat_turn pick w = Ret HbRestart w'
    /\ sent w' = sent w
    /\ activityTimer (client w')
       = Some (mkTimer (_activityTimeout (client w)) true false)
    /\ connected (client w') = true.
Proof.
  intros Hconn Ht Hok Hpend Hpick.
  set (w' := upd_client
               (set_activityTimer
                  (Some (mkTimer (_activityTimeout (client w)) true false)))
               (upd_client
                  (fun c => set_activityTimerReset
                              (option_map
                                 (fun ch => mkChan (ch_cap ch) (tl (ch_buf ch))
                                              (ch_recvq ch) (ch_taken ch) (ch_closed ch))
                                 (activityTimerReset c)) c) w)).
  exists w'. split; [| split; [| split]].
  - unfold heartbeat_turn. run. rewrite Hconn. cbn [negb]. rewrite Ht, Hpend.
    assert (Hreset : forall x y : M heartbeatStep,
               (if tm_C t then if pick then x else y else y) = y)
      by (intros x y; destruct Hpick as [-> | ->]; [now destruct (tm_C t) | reflexivity]).
    cbv zeta. rewrite Hreset. subst w'. unfold timerOk in Hok.
    destruct t as [d armed C]; cbn in *.
    destruct armed; cbn; [now rewrite Hok | reflexivity].
  - unfold sent, w'. now destruct w as [[] ? ? ? ?].
  - unfold w'. now destruct w as [[] ? ? ? ?].
  - rewrite <- Hconn. unfold w'. now destruct w as [[] ? ? ? ?].
Qed.

(** The timer of a successful [Connect] is running without a tick, firing
    keeps that, and so does a restart. *)
Lemma timerOk_NewTimer (d : Duration) : timerOk (NewTimer d).
Proof. intros _. reflexivity. Qed.

Lemma timerOk_fire (t : Timer) : timerOk t -> timerOk (timer_fire t).
Proof.
  unfold timerOk, timer_fire. destruct t as [d armed C]; cbn.
  destruct armed; cbn; intros H1 H2; [discriminate | auto].
Qed.

Lemma heartbeat_pings_once_witness :
  exists w',
    heartbeat_turn true
      (upd_client (set_activityTimer (Some (timer_fire (NewTimer 120000000000%Z))))
                  (demoConnected 0%Z []))
      = Ret HbPing w'
    /\ sent w' = [TextFrame pingPayload].
Proof.
  destruct (heartbeat_pings_once true
              (upd_client (set_activityTimer
                             (Some (timer_fire (NewTimer 120000000000%Z))))
                          (demoConnected 0%Z []))
              (mkConn [] [] false) (timer_fire (NewTimer 120000000000%Z))
              eq_refl eq_refl eq_refl eq_refl eq_refl eq_refl eq_refl)
    as (w' & Hrun & Hsent & _).
  exists w'. auto.
Defined.

Lemma heartbeat_restart_drains_tick_witness :
  exists w',
    heartbeat_turn false
      (after (resetActivityTimer
                (upd_client (set_activityTimer
                               (Some (timer_fire (NewTimer 120000000000%Z))))
                            (demoConnected 0%Z [])))
             (demoConnected 0%Z []))
      = Ret HbRestart w'
    /\ activityTimer (client w') = Some (mkTimer 120000000000%Z true false).
Proof.
  destruct (heartbeat_restart_drains_tick false
              (after (resetActivityTimer
                        (upd_client (set_activityTimer
                                       (Some (timer_fire (NewTimer 120000000000%Z))))
                                    (demoConnected 0%Z [])))
                     (demoConnected 0%Z []))
              (timer_fire (NewTimer 120000000000%Z))
              eq_refl eq_refl (timerOk_fire _ (timerOk_NewTimer _)) eq_refl
              (or_introl eq_refl))
    as (w' & Hrun & _ & Ht & _).
  exists w'. auto.
Defined.

(** ** Sending events *)

(** [SendEvent] returns the error of [json.Marshal] without requesting a
    reset or writing anything.  With a payload that marshals, on a
    connected session, it requests a reset of the activity timer and
    writes one envelope with the event name, the marshalled payload and
    the channel name.  On a client that never connected it panics on the
    nil connection. *)
Theorem SendEvent_outcomes (env : Env) (event : string) (data : GoValue)
    (channelName : string) (w : World) :
  (forall err, json_Marshal env data = inl err ->
     SendEvent env event data channelName w = Ret (Some err) w)
  /\ (forall raw, json_Marshal env data = inr raw ->
        resetSlot (client w) -> transportOpen w ->
        exists w',
          SendEvent env event data channelName w = Ret None w'
          /\ sent w' = sent w ++ [JSONFrame (mkEvent event raw channelName)]
          /\ pendingResets (client w') = 1)
  /\ (forall raw, json_Marshal env data = inr raw ->
        ws (client w) = None -> resetOpen (client w) ->
        exists w', SendEvent env event data channelName w = Panics nilDeref w').
Proof.
  split; [| split].
  - intros err Hm. unfold SendEvent. now rewrite Hm.
  - intros raw Hm Hslot (conn & Hws & Hopen).
    destruct (resetActivityTimer_spec w Hslot) as (w1 & Hreset & _ & Hp & Hw1).
    unfold SendEvent. rewrite Hm. run. rewrite Hreset.
    unfold ws_Send, sent. rewrite Hw1.
    destruct w as [[] ? ? ? ?]; cbn in *. subst ws0. rewrite Hopen.
    eexists. split; [reflexivity |]. cbn. split; [reflexivity |].
    unfold pendingResets in *. cbn. exact Hp.
  - intros raw Hm Hws Hro.
    destruct (resetActivityTimer_returns w Hro) as [slot Hreset].
    unfold SendEvent. rewrite Hm. run. rewrite Hreset.
    unfold ws_Send. destruct w as [[] ? ? ? ?]; cbn in *. subst ws0.
    eexists. reflexivity.
Qed.

Lemma SendEvent_outcomes_witness :
  (exists err,
     SendEvent (demoEnv []) "client-event" (VOpaque 0) "my-channel"
               (demoConnected 0%Z [])
     = Ret (Some err) (demoConnected 0%Z []))
  /\ exists w' raw,
       SendEvent (demoEnv []) "client-event" (VString "hello") "my-channel"
                 (demoConnected 0%Z [])
       = Ret None w'
       /\ sent w' = [JSONFrame (mkEvent "client-event" raw "my-channel")]
       /\ pendingResets (client w') = 1.
Proof.
  destruct (SendEvent_outcomes (demoEnv []) "client-event" (VOpaque 0) "my-channel"
              (demoConnected 0%Z [])) as (Herr & _ & _).
  split; [eexists; apply Herr; reflexivity |].
  destruct (SendEvent_outcomes (demoEnv []) "client-event" (VString "hello")
              "my-channel" (demoConnected 0%Z [])) as (_ & Hok & _).
  destruct (Hok (bytes (json_quote "hello")) eq_refl) as (w' & Hrun & Hsent & Hp).
  - exists (make_chan 1). cbn. repeat split; auto.
  - exists (mkConn [] [] false). split; reflexivity.
  - exists w', (bytes (json_quote "hello")). auto.
Defined.

(** ** Sessions *)

(** A [Connect] that returns an error has changed nothing but the
    connection handle: no goroutine is started, and the socket id, the
    timeout, the tables and the close listeners are as before.  The handle
    is nil exactly when the dial failed. *)
Theorem Connect_error_changes_only_ws (env : Env) (appKey : string)
    (w w' : World) (err : error) :
  Connect env appKey w = Ret (Some err) w' ->
  exists handle,
    w' = upd_client (set_ws handle) w
    /\ (handle = None <->
        exists e, websocket_Dial env (generateConnURL (client w) appKey) ""
                    localOrigin = inl e).
Proof.
  rewrite Connect_unfold.
  destruct (websocket_Dial env _ _ _) as [e | [ | [e | event] rest]]; cbn.
  - intros [= _ <-]. exists None. split; [reflexivity |]. split; eauto.
  - discriminate.
  - intros [= _ <-]. eexists. split; [reflexivity |].
    split; [discriminate | intros [e0 H]; discriminate].
  - assert (Hno : forall h : Conn,
               Some h = None <->
               exists e0 : error, inr (inr event :: rest)
                                  = (inl e0 : error + list (error + Event)))
      by (intros h; split; [discriminate | intros [e0 H]; discriminate]).
    destruct (String.eqb (ev_Event event) pusherError).
    { intros [= _ <-]. eexists. split; [reflexivity | apply Hno]. }
    destruct (String.eqb (ev_Event event) pusherConnEstablished).
    + destruct (UnmarshalDataString _ _ _); [| discriminate].
      intros [= _ <-]. eexists. split; [reflexivity | apply Hno].
    + intros [= _ <-]. eexists. split; [reflexivity | apply Hno].
Qed.

(** A successful [Connect] starts a fresh session: no event has a
    listener, no channel is registered, the disconnect cause is cleared,
    nothing is written yet, the timer runs with the effective timeout, and
    exactly the two loops are started.  The close listeners and the error
    channel registered before are kept. *)
Theorem Connect_starts_fresh_session (env : Env) (appKey : string) (w w' : World) :
  Connect env appKey w = Ret None w' ->
  (forall event, boundTo (client w') event = ∅)
  /\ (forall name, registered (client w') name = None)
  /\ disconnectErr (client w') = None
  /\ sent w' = []
  /\ activityTimer (client w') = Some (NewTimer (_activityTimeout (client w')))
  /\ started w w' = [GoHeartbeat; GoListen]
  /\ closes (client w') = closes (client w)
  /\ Errors (client w') = Errors (client w)
  /\ errchans w' = errchans w.
Proof.
  intros H. pose proof H as H0.
  apply Connect_success in H as (event & rest & connData & Hd & _ & Hu & Hc).
  rewrite Connect_unfold, Hd in H0. cbn in H0.
  destruct (String.eqb (ev_Event event) pusherError); [discriminate |].
  destruct (String.eqb (ev_Event event) pusherConnEstablished); [| discriminate].
  rewrite Hu in H0. injection H0 as <-.
  unfold boundTo, registered, sent, started.
  destruct w as [[] ? ? ? ?]; cbn.
  rewrite <- app_assoc, drop_app_length. repeat split.
Qed.

(** On a client whose tables are nil, as before the first successful
    [Connect], [Bind] and [Subscribe] panic on the assignment to the nil
    map, while [Unsubscribe] and [Unbind] return and change nothing. *)
Theorem methods_on_nil_tables (env : Env) (w : World) :
  boundEvents (client w) = None -> subscribedChannels (client w) = None ->
  (forall event,
     exists w', Bind event w = Panics "assignment to entry in nil map" w')
  /\ (forall name opts,
        exists w', Subscribe env name opts w
                   = Panics "assignment to entry in nil map" w')
  /\ (forall name, Unsubscribe env name w = Ret None w)
  /\ (forall event chans, Unbind event chans w = Ret tt w).
Proof.
  intros Hb Hs. split; [| split; [| split]].
  - intros event. unfold Bind. cbn. rewrite Hb. eauto.
  - intros name opts. unfold Subscribe, registered. run. rewrite Hs. cbn.
    rewrite Hs. eauto.
  - intros name. unfold Unsubscribe, registered. run. now rewrite Hs.
  - intros event chans. unfold Unbind. run.
    destruct w as [[] ? ? ? ?]; cbn in *. subst.
    destruct chans; reflexivity.
Qed.

(** [SubscribePresence] refuses a name without the prefix [presence-]. *)
Lemma SubscribePresence_invalid_name (env : Env) (name : string)
    (opts : list SubscribeOption) (w : World) :
  String.prefix "presence-" name = false ->
  SubscribePresence env name opts w
  = Ret (None,
         Some (NewError
                 ("invalid presence channel name, must start with 'presence-': "
                  +:+ name))) w.
Proof. intros H. unfold SubscribePresence. now rewrite H. Qed.

(** [sendError] never blocks, in any world, and changes no channel but the
    error channel of the client. *)
Theorem sendError_never_blocks (err : error) (w : World) :
  (forall w', sendError err w <> Blocks w')
  /\ (forall l, Errors (client w) <> Some l ->
        errchans (final (sendError err w)) !! l = errchans w !! l)
  /\ client (final (sendError err w)) = client w
  /\ goroutines (final (sendError err w)) = goroutines w.
Proof.
  unfold sendError.
  destruct (deref (Errors (client w)) w) as [ch |] eqn:Hd;
    [| repeat split; auto; discriminate].
  destruct (chansend ch (Some err)) as [ch' | |];
    try (repeat split; auto; discriminate).
  destruct (Errors (client w)) as [l0 |]; [| discriminate].
  cbn. repeat split; auto; try discriminate.
  intros l Hne. apply lookup_insert_ne. congruence.
Qed.

(** The loop of [Disconnect] changes no field of the client. *)
Lemma broadcast_client (chs : list (option loc)) :
  forall w w', broadcast chs w = Ret tt w' -> client w' = client w.
Proof.
  induction chs as [| r chs IH]; intros w w'.
  - now intros [= <-].
  - rewrite broadcast_cons. run. unfold chan_send, chan_close.
    destruct (deref r w) as [ch |]; [| discriminate].
    destruct (chansend ch _) as [ch1 | |]; [| discriminate | discriminate].
    destruct (deref r (store r ch1 w)) as [ch2 |]; [| discriminate].
    destruct (ch_closed ch2); [discriminate |].
    intros H. apply IH in H. rewrite H. now destruct r.
Qed.

Lemma Disconnect_connected (w w' : World) (r : option error) :
  Disconnect w = Ret r w' -> connected (client w') = false.
Proof.
  unfold Disconnect. run.
  destruct (broadcast _ _) as [[] w1 | |] eqn:Hb; [| discriminate | discriminate].
  apply broadcast_client in Hb.
  destruct w1 as [c1 ? ? ? ?]. cbn in Hb. subst c1.
  destruct w as [[] ? ? ? ?]; cbn.
  unfold ws_Close. cbn.
  destruct ws0 as [conn |]; cbn.
  - destruct (conn_closed conn); intros [= _ <-]; reflexivity.
  - intros [= _ <-]. reflexivity.
Qed.

Lemma listen_turn_ends (env : Env) (w w' : World) :
  listen_turn env w = Ret false w' -> connected (client w') = false.
Proof.
  unfold listen_turn. run.
  destruct (connected (client w)) eqn:Hconn; cbn; [| now intros [= <-]].
  unfold ws_SetReadDeadline, ws_Receive.
  destruct (ws (client w)) as [conn |] eqn:Hws; cbn; [| discriminate].
  rewrite Hws. destruct (conn_closed conn).
  - cbn. rewrite Hconn. cbn.
    destruct (sendError errClosedConn w) as [[] w1 | |]; [| discriminate ..].
    cbn. destruct (Disconnect _) as [r w2 | |] eqn:Hd; [| discriminate ..].
    intros [= <-]. now apply Disconnect_connected in Hd.
  - destruct (conn_in conn) as [| [err | event] rest]; [discriminate | |].
    + cbn. rewrite Hconn. cbn.
      destruct (sendError err _) as [[] w1 | |]; [| discriminate ..].
      cbn. destruct (Disconnect _) as [r w2 | |] eqn:Hd; [| discriminate ..].
      intros [= <-]. now apply Disconnect_connected in Hd.
    + cbn. destruct (resetActivityTimer _) as [[] w1 | |]; [| discriminate ..].
      match goal with
      | |- context [match ?m w1 with _ => _ end] => destruct (m w1) as [[] ? | |]
      end; discriminate.
Qed.

(** The loops end only on a session that is not connected: when [listen]
    or [heartbeat] has returned, the flag [connected] is false. *)
Theorem loops_return_disconnected (env : Env) (w w' : World) :
  (forall fuel, listen env fuel w = Ret (Some tt) w' ->
                connected (client w') = false)
  /\ (forall picks, heartbeat picks w = Ret (Some tt) w' ->
                    connected (client w') = false).
Proof.
  split.
  - intros fuel. revert w. induction fuel as [| fuel IH]; intros w.
    + discriminate.
    + cbn [listen]. run.
      destruct (listen_turn env w) as [[] w1 | |] eqn:Ht; cbn;
        [| | discriminate ..].
      * apply IH.
      * intros [= <-]. now apply listen_turn_ends in Ht.
  - intros picks. revert w. induction picks as [| pick picks IH]; intros w.
    + discriminate.
    + cbn [heartbeat]. run.
      destruct (heartbeat_turn pick w) as [[] w1 | |] eqn:Ht; cbn;
        try discriminate; try apply IH.
      intros [= <-]. revert Ht. unfold heartbeat_turn. run.
      destruct (connected (client w)) eqn:Hc; cbn.
      * destruct (activityTimer (client w)) as [t |]; [| discriminate].
        cbv zeta. run.
        destruct (reset_pending (client w)), (tm_C t), pick; try discriminate;
          unfold ws_Send; cbn;
          destruct (ws _) as [conn |]; try discriminate;
          destruct (conn_closed conn); discriminate.
      * now intros [= <-].
Qed.

Lemma Connect_error_changes_only_ws_witness :
  exists err handle,
    Connect (demoEnv [inr errorEvent]) "key" (demoWorld 0%Z)
      = Ret (Some err) (upd_client (set_ws handle) (demoWorld 0%Z))
    /\ handle <> None.
Proof.
  destruct (Connect_error_changes_only_ws (demoEnv [inr errorEvent]) "key"
              (demoWorld 0%Z)
              (upd_client (set_ws (Some (mkConn [] [] false))) (demoWorld 0%Z))
              (NewError "Pusher error 4001: Application does not exist") eq_refl)
    as (handle & Hw & Hnil).
  exists (NewError "Pusher error 4001: Application does not exist"), handle.
  split; [now rewrite <- Hw |].
  intros H. apply Hnil in H as [e H]. discriminate.
Defined.

Lemma Connect_starts_fresh_session_witness :
  started (demoWorld 0%Z) (demoConnected 0%Z []) = [GoHeartbeat; GoListen]
  /\ closes (client (demoConnected 0%Z [])) = [Some 1; Some 2]
  /\ forall name, registered (client (demoConnected 0%Z [])) name = None.
Proof.
  destruct (Connect_starts_fresh_session (demoEnv [inr establishedEvent]) "key"
              (demoWorld 0%Z) (demoConnected 0%Z []) eq_refl)
    as (_ & Hreg & _ & _ & _ & Hst & Hcl & _).
  split; [exact Hst |]. split; [exact Hcl | exact Hreg].
Defined.

Lemma methods_on_nil_tables_witness :
  (exists w', Bind "greeting" (demoWorld 0%Z)
              = Panics "assignment to entry in nil map" w')
  /\ Unsubscribe (demoEnv []) "my-channel" (demoWorld 0%Z)
     = Ret None (demoWorld 0%Z).
Proof.
  destruct (methods_on_nil_tables (demoEnv []) (demoWorld 0%Z) eq_refl eq_refl)
    as (Hbind & _ & Hunsub & _).
  split; [apply Hbind | apply Hunsub].
Defined.

(** The read loop of the example ends on the read failure. *)
Lemma loops_return_disconnected_witness :
  exists w',
    listen (demoEnv []) 2 (demoConnected 0%Z [inl (NewError "EOF")])
      = Ret (Some tt) w'
    /\ connected (client w') = false.
Proof.
  assert (Hrun : listen (demoEnv []) 2 (demoConnected 0%Z [inl (NewError "EOF")])
                 = Ret (Some tt)
                     (final (listen (demoEnv []) 2
                               (demoConnected 0%Z [inl (NewError "EOF")]))))
    by by_computation.
  eexists. split; [exact Hrun |].
  exact (proj1 (loops_return_disconnected (demoEnv [])
                  (demoConnected 0%Z [inl (NewError "EOF")]) _) 2 Hrun).
Defined.

(** ** The registry, continued *)

(** [Unsubscribe] of an entry (channel.go) writes at most to the transport
    and the reset slot. *)
Lemma Unsubscribe_frame (env : Env) (name : string) (ch : loc) (w : World) :
  registered (client w) name = Some ch ->
  subscribedChannels (client (final (Unsubscribe env name w)))
  = delete name <$> subscribedChannels (client w)
  /\ entries (final (Unsubscribe env name w)) = entries w.
Proof.
  intros Hreg. unfold Unsubscribe. run. rewrite Hreg.
  set (w1 := upd_client _ w).
  assert (H1 : subscribedChannels (client w1)
               = delete name <$> subscribedChannels (client w))
    by (unfold w1; now destruct w as [[] ? ? ? ?]).
  unfold channel_Unsubscribe.
  destruct (entries w1 !! ch) as [e |]; [| split; [exact H1 | reflexivity]].
  destruct (SendEvent_frame env pusherUnsubscribe
              (VStringMap [("channel", chn_name e)]) "" w1)
    as (Hs & _ & _ & He & _).
  rewrite Hs, He. split; [exact H1 | reflexivity].
Qed.

(** [Subscribe] for one name leaves the registrations of all other names
    as they are, whatever its outcome, and every existing entry keeps its
    name and its variant. *)
Theorem Subscribe_keeps_other_names (env : Env) (name : string)
    (opts : list SubscribeOption) (w : World) :
  (forall other, other <> name ->
     registered (client (final (Subscribe env name opts w))) other
     = registered (client w) other)
  /\ (forall l e, entries w !! l = Some e ->
        exists e', entries (final (Subscribe env name opts w)) !! l = Some e'
                   /\ chn_name e' = chn_name e
                   /\ chn_variant e' = chn_variant e).
Proof.
  destruct (registered (client w) name) as [ch |] eqn:Hreg.
  - rewrite (Subscribe_registered env name opts ch w Hreg).
    destruct (channel_Subscribe_frame env ch opts w) as [Hs He].
    assert (Hfinal : final ((err ← channel_Subscribe env ch opts; mret (ch, err)) w)
                     = final (channel_Subscribe env ch opts w))
      by (run; now destruct (channel_Subscribe env ch opts w)).
    rewrite Hfinal. split.
    + intros other _. unfold registered. now rewrite Hs.
    + intros l e Hl. destruct (He l e Hl) as (e' & H1 & H2 & H3). eauto.
  - destruct (subscribedChannels (client w)) as [m |] eqn:Hm.
    + assert (Hname : m !! name = None)
        by (unfold registered in Hreg; now rewrite Hm in Hreg).
      pose proof (Subscribe_new env name opts m w Hm Hname) as Hnew.
      cbn zeta in Hnew. rewrite Hnew.
      set (ch := fresh (dom (entries w))) in *.
      set (w1 := upd_client _ _).
      destruct (channel_Subscribe_frame env ch opts w1) as [Hs He].
      assert (Hfinal : final ((err ← channel_Subscribe env ch opts; mret (ch, err)) w1)
                       = final (channel_Subscribe env ch opts w1))
        by (run; now destruct (channel_Subscribe env ch opts w1)).
      rewrite Hfinal. split.
      * intros other Hne. unfold registered. rewrite Hs, Hm. unfold w1. cbn.
        destruct (client w); cbn. now apply lookup_insert_ne.
      * intros l e Hl. destruct (He l e) as (e' & H1 & H2 & H3); [| eauto].
        unfold w1. cbn. rewrite lookup_insert_ne; [exact Hl |].
        intros <-. assert (Hin : ch ∈ dom (entries w))
          by (apply elem_of_dom; eauto).
        now apply is_fresh in Hin.
    + assert (Hfinal : final (Subscribe env name opts w)
                       = set_entries (<[fresh (dom (entries w))
                                        := mkChannel (variantOf name) name ∅
                                                     unsubscribed ∅]> (entries w)) w).
      { unfold Subscribe, registered. run. rewrite Hm. cbn. now rewrite Hm. }
      rewrite Hfinal. split; [reflexivity |].
      intros l e Hl. exists e. cbn. split; [| auto].
      rewrite lookup_insert_ne; [exact Hl |].
      intros <-. assert (Hin : fresh (dom (entries w)) ∈ dom (entries w))
        by (apply elem_of_dom; eauto).
      now apply is_fresh in Hin.
Qed.

(** After [Unsubscribe], [Subscribe] for the same name builds a new entry:
    the handle it registers is not the one that was registered before, so
    what was bound to the old handle is not carried over. *)
Theorem Unsubscribe_then_Subscribe_new_entry (env : Env) (name : string)
    (opts : list SubscribeOption) (ch : loc) (e : channel) (r : option error)
    (w w1 : World) :
  registered (client w) name = Some ch -> entries w !! ch = Some e ->
  Unsubscribe env name w = Ret r w1 ->
  exists ch' e',
    registered (client (final (Subscribe env name opts w1))) name = Some ch'
    /\ ch' <> ch
    /\ entries (final (Subscribe env name opts w1)) !! ch' = Some e'
    /\ chn_name e' = name
    /\ exists e0, entries (final (Subscribe env name opts w1)) !! ch = Some e0
                  /\ chn_name e0 = chn_name e.
Proof.
  intros Hreg He Hrun.
  destruct (Unsubscribe_frame env name ch w Hreg) as [Hs Hent].
  rewrite Hrun in Hs, Hent. cbn in Hs, Hent.
  unfold registered in Hreg.
  destruct (subscribedChannels (client w)) as [m |] eqn:Hm; [| discriminate].
  cbn in Hs, Hreg.
  assert (Hname : delete name m !! name = None) by apply lookup_delete_eq.
  pose proof (Subscribe_new env name opts (delete name m) w1 Hs Hname) as Hnew.
  cbn zeta in Hnew.
  set (ch' := fresh (dom (entries w1))) in *.
  set (w2 := upd_client _ _) in Hnew.
  destruct (channel_Subscribe_frame env ch' opts w2) as [Hs2 He2].
  assert (Hfinal : final (Subscribe env name opts w1)
                   = final (channel_Subscribe env ch' opts w2))
    by (rewrite Hnew; run; now destruct (channel_Subscribe env ch' opts w2)).
  assert (Hne : ch' <> ch).
  { intros Heq. assert (Hin : ch' ∈ dom (entries w1))
      by (rewrite Heq, Hent; apply elem_of_dom; eauto).
    now apply is_fresh in Hin. }
  destruct (He2 ch' (mkChannel (variantOf name) name ∅ unsubscribed ∅))
    as (e' & H1 & _ & H3).
  { unfold w2. cbn. apply lookup_insert_eq. }
  destruct (He2 ch e) as (e0 & H4 & _ & H6).
  { unfold w2. cbn. rewrite lookup_insert_ne by auto. now rewrite Hent. }
  exists ch', e'. rewrite Hfinal.
  split; [| split; [exact Hne | split; [exact H1 | split; [exact H3 | eauto]]]].
  unfold registered. rewrite Hs2. unfold w2. cbn.
  destruct (client w1); cbn. apply lookup_insert_eq.
Qed.

Lemma Unsubscribe_then_Subscribe_new_entry_witness :
  exists w1 ch',
    Unsubscribe (demoEnv []) "my-channel" demoSubscribedOnce = Ret None w1
    /\ registered (client (final (Subscribe (demoEnv []) "my-channel" [] w1)))
         "my-channel" = Some ch'
    /\ ch' <> 0.
Proof.
  assert (Hrun : Unsubscribe (demoEnv []) "my-channel" demoSubscribedOnce
                 = Ret None (final (Unsubscribe (demoEnv []) "my-channel"
                                      demoSubscribedOnce)))
    by by_computation.
  destruct (Unsubscribe_then_Subscribe_new_entry (demoEnv []) "my-channel" [] 0
              (mkChannel Public "my-channel" ∅ subscribing ∅) None
              demoSubscribedOnce
              (final (Unsubscribe (demoEnv []) "my-channel" demoSubscribedOnce)))
    as (ch' & e' & Hreg & Hne & _); try by_computation.
  eexists _, ch'. split; [exact Hrun |]. split; [exact Hreg | exact Hne].
Defined.

Lemma channel_Subscribe_final (env : Env) (ch : loc) (opts : list SubscribeOption)
    (w : World) :
  final ((err ← channel_Subscribe env ch opts; mret (ch, err)) w)
  = final (channel_Subscribe env ch opts w).
Proof. run. now destruct (channel_Subscribe env ch opts w). Qed.

(** [Subscribe] keeps the registry well formed, whatever its outcome. *)
Lemma Subscribe_registryOk (env : Env) (name : string)
    (opts : list SubscribeOption) (w : World) :
  registryOk w -> registryOk (final (Subscribe env name opts w)).
Proof.
  intros Hok.
  destruct (registered (client w) name) as [ch |] eqn:Hreg.
  - rewrite (Subscribe_registered env name opts ch w Hreg), channel_Subscribe_final.
    destruct (channel_Subscribe_frame env ch opts w) as [Hs He].
    intros n l Hl. unfold registered in Hl. rewrite Hs in Hl.
    destruct (Hok n l Hl) as (e & H1 & H2).
    destruct (He l e H1) as (e' & H3 & H4 & _). exists e'. split; congruence.
  - destruct (subscribedChannels (client w)) as [m |] eqn:Hm.
    + assert (Hname : m !! name = None)
        by (unfold registered in Hreg; now rewrite Hm in Hreg).
      pose proof (Subscribe_new env name opts m w Hm Hname) as Hnew.
      cbn zeta in Hnew. rewrite Hnew, channel_Subscribe_final.
      set (ch := fresh (dom (entries w))) in *.
      set (w1 := upd_client _ _).
      destruct (channel_Subscribe_frame env ch opts w1) as [Hs He].
      assert (Hreg1 : forall n, registered (client (final (channel_Subscribe env ch opts w1))) n
                                = <[name := ch]> m !! n).
      { intros n. unfold registered. rewrite Hs. unfold w1. cbn.
        now destruct (client w). }
      intros n l Hl. rewrite Hreg1 in Hl.
      destruct (decide (name = n)) as [<- | Hne].
      * rewrite lookup_insert_eq in Hl. injection Hl as <-.
        destruct (He ch (mkChannel (variantOf name) name ∅ unsubscribed ∅))
          as (e' & H1 & H2 & _); [unfold w1; cbn; apply lookup_insert_eq |].
        exists e'. split; [exact H1 | exact H2].
      * rewrite lookup_insert_ne in Hl by auto.
        destruct (Hok n l) as (e & H1 & H2);
          [unfold registered; now rewrite Hm |].
        assert (l <> ch).
        { intros ->. assert (Hin : ch ∈ dom (entries w))
            by (apply elem_of_dom; eauto).
          now apply is_fresh in Hin. }
        destruct (He l e) as (e' & H3 & H4 & _);
          [unfold w1; cbn; now rewrite lookup_insert_ne by auto |].
        exists e'. split; congruence.
    + intros n l Hl. exfalso. revert Hl.
      unfold Subscribe, registered. run. rewrite Hm. cbn. rewrite Hm. cbn.
      destruct (client w); cbn in *. subst. discriminate.
Qed.

(** The variants in the registry always follow the names: a session just
    connected has this, and [Subscribe] and [Unsubscribe] keep it,
    whatever their outcome. *)
Theorem registry_variants_follow_names (env : Env) (name : string)
    (opts : list SubscribeOption) (w : World) :
  (forall appKey w', Connect env appKey w = Ret None w' -> registryOk w')
  /\ (registryOk w -> registryOk (final (Subscribe env name opts w)))
  /\ (registryOk w -> registryOk (final (Unsubscribe env name w))).
Proof.
  split; [| split].
  - intros appKey w' H.
    apply Connect_success in H as (event & rest & connData & _ & _ & _ & Hc).
    intros n l Hl. unfold registered in Hl. rewrite Hc in Hl. cbn in Hl.
    rewrite lookup_empty in Hl. discriminate.
  - apply Subscribe_registryOk.
  - intros Hok.
    destruct (registered (client w) name) as [ch |] eqn:Hreg.
    + destruct (Unsubscribe_frame env name ch w Hreg) as [Hs He].
      intros n l Hl. unfold registered in Hl. rewrite Hs in Hl. rewrite He.
      destruct (subscribedChannels (client w)) as [m |] eqn:Hm; [| discriminate].
      cbn in Hl. destruct (decide (name = n)) as [<- | Hne].
      * rewrite lookup_delete_eq in Hl. discriminate.
      * rewrite lookup_delete_ne in Hl by auto.
        apply Hok. unfold registered. now rewrite Hm.
    + assert (Hsame : Unsubscribe env name w = Ret None w)
        by (unfold Unsubscribe; run; now rewrite Hreg).
      now rewrite Hsame.
Qed.

(** On a well formed registry, a returning [Subscribe] for a presence name
    makes [SubscribePresence] return the same entry with the same error. *)
Lemma SubscribePresence_returns_entry (env : Env) (name : string)
    (opts : list SubscribeOption) (ch : loc) (err : option error) (w w' : World) :
  String.prefix "presence-" name = true -> registryOk w ->
  Subscribe env name opts w = Ret (ch, err) w' ->
  SubscribePresence env name opts w = Ret (Some ch, err) w'.
Proof.
  intros Hp Hok Hrun.
  pose proof (Subscribe_registryOk env name opts w Hok) as Hok'.
  rewrite Hrun in Hok'. cbn in Hok'.
  assert (Hreg : registered (client w') name = Some ch).
  { destruct (registered (client w) name) as [ch0 |] eqn:Hreg.
    - rewrite (Subscribe_registered env name opts ch0 w Hreg) in Hrun.
      destruct (channel_Subscribe_frame env ch0 opts w) as [Hs _].
      revert Hrun. run.
      destruct (channel_Subscribe env ch0 opts w) as [e0 w0 | |];
        [| discriminate | discriminate].
      intros [= <- _ <-]. cbn in Hs. unfold registered in *. now rewrite Hs.
    - destruct (subscribedChannels (client w)) as [m |] eqn:Hm.
      + assert (Hname : m !! name = None)
          by (unfold registered in Hreg; now rewrite Hm in Hreg).
        pose proof (Subscribe_new env name opts m w Hm Hname) as Hnew.
        cbn zeta in Hnew. rewrite Hnew in Hrun.
        set (w0 := upd_client _ _) in Hrun.
        destruct (channel_Subscribe_frame env (fresh (dom (entries w))) opts w0)
          as [Hs _].
        revert Hrun. run.
        destruct (channel_Subscribe env _ opts w0) as [e0 w1 | |];
          [| discriminate | discriminate].
        intros [= <- _ <-]. cbn in Hs. unfold registered. rewrite Hs.
        unfold w0; cbn. destruct (client w); cbn. apply lookup_insert_eq.
      + revert Hrun. unfold Subscribe. run. rewrite Hreg. cbn. rewrite Hm.
        discriminate. }
  destruct (Hok' name ch Hreg) as (e & He & Hv).
  unfold SubscribePresence. rewrite Hp. cbn [negb]. run. rewrite Hrun. cbn.
  rewrite He. cbn. rewrite Hv, (variantOf_presence name Hp). reflexivity.
Qed.

(** [SubscribePresence] refuses a name without the prefix [presence-]: it
    returns no channel and an error, registers nothing and sends nothing.
    For a name with the prefix, on a registry whose variants follow the
    names, its type assertion never fails: whenever [Subscribe] returns,
    it returns the same entry with the same error. *)
Theorem SubscribePresence_outcomes (env : Env) (name : string)
    (opts : list SubscribeOption) (w : World) :
  (String.prefix "presence-" name = false ->
   SubscribePresence env name opts w
   = Ret (None,
          Some (NewError
                  ("invalid presence channel name, must start with 'presence-': "
                   +:+ name))) w)
  /\ (String.prefix "presence-" name = true -> registryOk w ->
      forall ch err w',
        Subscribe env name opts w = Ret (ch, err) w' ->
        SubscribePresence env name opts w = Ret (Some ch, err) w').
Proof.
  split.
  - apply SubscribePresence_invalid_name.
  - intros Hp Hok ch err w'. now apply SubscribePresence_returns_entry.
Qed.

Lemma SubscribePresence_outcomes_witness :
  (exists err,
     SubscribePresence (demoEnv []) "private-room" [] (demoConnected 0%Z [])
     = Ret (None, Some err) (demoConnected 0%Z []))
  /\ SubscribePresence (demoEnv []) "presence-room" [] (demoConnected 0%Z [])
     = Ret (Some 0, None) demoPresence.
Proof.
  split.
  - eexists.
    apply (proj1 (SubscribePresence_outcomes (demoEnv []) "private-room" []
                    (demoConnected 0%Z [])) eq_refl).
  - apply (proj2 (SubscribePresence_outcomes (demoEnv []) "presence-room" []
                    (demoConnected 0%Z [])) eq_refl).
    + intros n l Hl. unfold registered in Hl.
      change (subscribedChannels (client (demoConnected 0%Z [])))
        with (Some (∅ : gmap string loc)) in Hl.
      cbn in Hl. rewrite lookup_empty in Hl. discriminate.
    + by_computation.
Defined.

(** ** The connection URL and the double decoding *)

(** The URL of a connection is [scheme://host:port/app/KEY?protocol=7].
    The scheme is secure unless the client is marked insecure.  The host of
    the tests wins over the host of the cluster, which wins over the
    default host; the port of the tests wins over the port of the scheme,
    443 or 80. *)
Theorem generateConnURL_precedence (c : Client) (appKey : string) :
  exists scheme host port,
    generateConnURL c appKey
    = scheme +:+ "://" +:+ host +:+ ":" +:+ pretty port +:+ "/app/" +:+ appKey
             +:+ "?protocol=7"
    /\ scheme = (if Insecure c then "ws" else "wss")
    /\ (overrideHost c <> "" -> host = overrideHost c)
    /\ (overrideHost c = "" -> Cluster c <> "" ->
        host = "ws-" +:+ Cluster c +:+ ".pusher.com")
    /\ (overrideHost c = "" -> Cluster c = "" -> host = "ws.pusherapp.com")
    /\ (overridePort c <> 0%Z -> port = overridePort c)
    /\ (overridePort c = 0%Z -> port = if Insecure c then 80%Z else 443%Z).
Proof.
  unfold generateConnURL.
  destruct (Insecure c); cbn;
    destruct (Z.eqb_spec (overridePort c) 0) as [Hp | Hp];
    destruct (String.eqb_spec (overrideHost c) "") as [Hh | Hh];
    destruct (String.eqb_spec (Cluster c) "") as [Hc | Hc];
    eexists _, _, _; (split; [reflexivity |]);
    repeat split; intros; try reflexivity; try contradiction; try congruence.
Qed.

(** [UnmarshalDataString] decodes twice: it succeeds exactly when the
    payload decodes to a string and that string decodes to the
    destination.  When the payload is not a JSON string, the error of the
    first decoding is returned, whatever the destination. *)
Theorem UnmarshalDataString_decodes_twice (env : Env) (T : Type)
    (unmarshal : list Byte.byte -> error + T) (data : RawMessage) :
  (forall v, UnmarshalDataString env unmarshal data = inr v <->
             exists dataStr, json_Unmarshal_string env data = inr dataStr
                             /\ unmarshal (list_byte_of_string dataStr) = inr v)
  /\ (forall err, json_Unmarshal_string env data = inl err ->
                  UnmarshalDataString env unmarshal data = inl err)
  /\ (forall dataStr err,
        json_Unmarshal_string env data = inr dataStr ->
        unmarshal (list_byte_of_string dataStr) = inl err ->
        UnmarshalDataString env unmarshal data = inl err).
Proof.
  unfold UnmarshalDataString.
  destruct (json_Unmarshal_string env data) as [e | s]; repeat split.
  - discriminate.
  - intros (s & H & _). discriminate.
  - now intros err [= ->].
  - discriminate.
  - intros H. eauto.
  - intros (s0 & [= <-] & H). exact H.
  - discriminate.
  - now intros s0 err [= <-].
Qed.
